(** * learn-redux: the counter and todo slices

    A shallow embedding of [src/store/slices/counterSlice.ts] and of the todo
    slice (reducers, action creators and selectors), followed by the
    properties the specification states about them.

    Modelling choices, all visible in the definitions below:
    - a JavaScript [number] is an IEEE 754 binary64 float wherever the code
      computes with it (the counter value, the percentage of
      [selectTodoStats]); array lengths and timestamps, which the code only
      reads, are integers of [Z];
    - [String.prototype.toLowerCase] is a parameter of the selector that
      calls it, its behaviour on ASCII text being [toLowerCaseAscii];
    - every JavaScript object carries the identity it was allocated with, so
      that "the same object" and "an equal copy" are different statements;
    - [Date.now()], [Math.random()] and allocation are effects on a [World]. *)

From Stdlib Require Import ZArith List String Ascii Bool Lia.
From Stdlib Require Import DecimalString Floats Uint63.
From Stdlib Require Import DecimalPos DecimalZ Permutation.
Import ListNotations.

Local Open Scope Z_scope.

(* ========================================================================= *)
(** * The JavaScript runtime the slices rely on *)
(* ========================================================================= *)

Module Js.

(** Identity of a heap object: two references are [===] exactly when they
    carry the same [ref]. *)
Definition ref := nat.

(** What the code observes of the outside world.  [clock k] is what the
    [k]-th call of [Date.now()] returns, [random36 k] is what
    [Math.random().toString(36)] is at the [k]-th call of [Math.random()];
    [nextRef] is the identity the next allocated object receives. *)
Record World : Type := mkWorld {
  clock : nat -> Z;
  clockReads : nat;
  random36 : nat -> string;
  randomReads : nat;
  nextRef : ref
}.

(** Computations that read the clock, draw random numbers and allocate. *)
Definition M (A : Type) : Type := World -> A * World.

Definition ret {A : Type} (a : A) : M A := fun w => (a, w).

Definition bind {A B : Type} (m : M A) (k : A -> M B) : M B :=
  fun w => let (a, w') := m w in k a w'.

Notation "x <- m ;; k" := (bind m (fun x => k))
  (at level 61, m at next level, right associativity).

(** [Date.now()] *)
Definition Date_now : M Z := fun w =>
  (clock w (clockReads w),
   mkWorld (clock w) (S (clockReads w)) (random36 w) (randomReads w) (nextRef w)).

(** [Math.random().toString(36)] *)
Definition Math_random_toString36 : M string := fun w =>
  (random36 w (randomReads w),
   mkWorld (clock w) (clockReads w) (random36 w) (S (randomReads w)) (nextRef w)).

(** Allocation of an object or array: yields a fresh identity.  A literal
    is allocated before the expressions inside it are evaluated, and [map]
    and [filter] allocate their result before they visit the elements; the
    order only decides which identity each new object receives. *)
Definition newObject : M ref := fun w =>
  (nextRef w,
   mkWorld (clock w) (clockReads w) (random36 w) (randomReads w) (S (nextRef w))).

(** An array is an object too: an identity and its elements. *)
Record JsArray (A : Type) : Type := mkArray {
  arrayRef : ref;
  items : list A
}.
Arguments mkArray {A} _ _.
Arguments arrayRef {A} _.
Arguments items {A} _.

(** The callback of [map] applied to the elements from left to right. *)
Fixpoint mapM {A B : Type} (f : A -> M B) (l : list A) : M (list B) :=
  match l with
  | [] => ret []
  | x :: rest => y <- f x ;; ys <- mapM f rest ;; ret (y :: ys)
  end.

(** [arr.map(f)]: a new array holding what the callback returns. *)
Definition Array_map {A B : Type} (f : A -> M B) (arr : JsArray A) : M (JsArray B) :=
  r <- newObject ;;
  ys <- mapM f (items arr) ;;
  ret (mkArray r ys).

(** [arr.filter(p)]: a new array holding the very elements that satisfy [p]. *)
Definition Array_filter {A : Type} (p : A -> bool) (arr : JsArray A) : M (JsArray A) :=
  r <- newObject ;;
  ret (mkArray r (List.filter p (items arr))).

(** [arr.every(p)] *)
Definition Array_every {A : Type} (p : A -> bool) (arr : JsArray A) : bool :=
  forallb p (items arr).

(** [arr.length] *)
Definition Array_length {A : Type} (arr : JsArray A) : Z :=
  Z.of_nat (List.length (items arr)).

(** [n.toString()] and [`${n}`] for an integer [n] that a number holds
    exactly and prints in full: a safe integer, as the timestamps are.
    Larger numbers, which JavaScript prints with their shortest digits or in
    exponent form, are not followed. *)
Definition Number_toString (n : Z) : string :=
  NilZero.string_of_int (Z.to_int n).

(** [s.substr(start, len)] *)
Definition substr (start len : nat) (s : string) : string :=
  String.substring start len s.

(** A string is a sequence of bytes, the UTF-8 form of the JavaScript
    string; it is ASCII when every byte is below 128. *)
Fixpoint isAscii (s : string) : bool :=
  match s with
  | EmptyString => true
  | String c rest => (nat_of_ascii c <? 128)%nat && isAscii rest
  end.

(** [s.toLowerCase()] for an ASCII string [s]: A..Z become a..z, every other
    character stays.  What [toLowerCase] does to other strings (it lowers
    every cased letter of Unicode, some of them depending on their
    neighbours) is not defined here: the code that calls it takes it as a
    parameter. *)
Definition lowerChar (c : ascii) : ascii :=
  let n := nat_of_ascii c in
  if ((65 <=? n)%nat && (n <=? 90)%nat)%bool then ascii_of_nat (n + 32) else c.

Fixpoint toLowerCaseAscii (s : string) : string :=
  match s with
  | EmptyString => EmptyString
  | String c rest => String (lowerChar c) (toLowerCaseAscii rest)
  end.

(** [s.includes(pattern)]: [pattern] occurs in [s] at some position. *)
Fixpoint includes (s pattern : string) : bool :=
  String.prefix pattern s ||
  match s with
  | EmptyString => false
  | String _ rest => includes rest pattern
  end.

(** Truthiness of a string, as in [if (searchTerm)]: non-empty. *)
Definition truthy (s : string) : bool :=
  match s with
  | EmptyString => false
  | String _ _ => true
  end.

(** A non-negative integer as a [number]. *)
Definition toNumber (n : Z) : float := PrimFloat.of_uint63 (Uint63.of_Z n).

(** The Number value of an integer of any size and sign: the binary64 number
    nearest to it, ties going to the even mantissa, and an infinity beyond
    the largest finite number.  It is the integer itself up to 2^53 in
    absolute value. *)
Definition Number_ofZ (n : Z) : float :=
  SF2Prim (binary_normalize prec emax n 0 false).

(** [x % 2]: the remainder of the division truncated towards zero, with the
    sign of [x]; NaN for NaN and the infinities.  With |x| = m * 2^e, |x| is
    a multiple of 2 when e >= 1, and otherwise |x| % 2 is
    (m mod 2^(1-e)) * 2^e, which binary64 holds exactly. *)
Definition Number_rem2 (x : float) : float :=
  match Prim2SF x with
  | S754_nan | S754_infinity _ => PrimFloat.nan
  | S754_zero _ => x
  | S754_finite s m e =>
      let r := if 1 <=? e then 0 else Z.pos m mod 2 ^ (1 - e) in
      if r =? 0 then (if s then PrimFloat.neg_zero else PrimFloat.zero)
      else SF2Prim (binary_normalize prec emax (if s then - r else r) e false)
  end.

(** [Math.round(x)]: the integer closest to [x], ties going towards
    +infinity, that is floor(x + 1/2) computed exactly; NaN, the infinities
    and the zeros are returned as they are.  With [x] = (-1)^s * m * 2^e and
    e < 0, floor(x + 1/2) = floor((2 * (+-m) + 2^-e) / 2^(1-e)); with e >= 0,
    [x] is an integer already. *)
Definition Math_round (x : float) : float :=
  match Prim2SF x with
  | S754_finite s m e =>
      if 0 <=? e then x
      else
        let v := if s then Z.neg m else Z.pos m in
        let q := Z.shiftr (2 * v + Z.shiftl 1 (- e)) (1 - e) in
        if q =? 0 then (if s then PrimFloat.neg_zero else PrimFloat.zero)
        else if q <? 0 then PrimFloat.opp (toNumber (- q))
        else toNumber q
  | _ => x
  end.

(** The payload of an action object. [action.payload] is absent, a number, a
    string or, for [editTodo], the object [{ id, text }].  A number payload
    is an integer, as the counter's callers supply it ([parseInt]); [JsNumber
    n] stands for the Number value of the integer [n], [Number_ofZ n]. *)
Inductive JsValue : Type :=
| JsUndefined
| JsNumber (n : Z)
| JsString (s : string)
| JsIdText (id text : string).

(** An action object [{ type, payload? }]. *)
Record Action : Type := mkAction {
  type : string;
  payload : JsValue
}.

(** A reducer call.  The reducers are typed by TypeScript: a recognized tag
    comes with the payload its interface declares.  [None] stands for the
    calls those types exclude (a recognized tag with a payload of another
    shape), which the model does not follow. *)
Definition run {A : Type} (r : option (M A)) (w : World) : option (A * World) :=
  match r with
  | Some m => Some (m w)
  | None => None
  end.

End Js.

Import Js.

(* ========================================================================= *)
(** * src/store/slices/counterSlice.ts *)
(* ========================================================================= *)

Module Counter.

Local Open Scope string_scope.

Definition INCREMENT : string := "counter/increment".
Definition DECREMENT : string := "counter/decrement".
Definition INCREMENT_BY_AMOUNT : string := "counter/incrementByAmount".
Definition RESET : string := "counter/reset".

(** Action creators. *)
Definition increment : Action := mkAction INCREMENT JsUndefined.
Definition decrement : Action := mkAction DECREMENT JsUndefined.
Definition incrementByAmount (amount : Z) : Action :=
  mkAction INCREMENT_BY_AMOUNT (JsNumber amount).
Definition reset : Action := mkAction RESET JsUndefined.

Record CounterState : Type := mkCounterState {
  counterRef : ref;       (* identity of the state object *)
  value : float;
  lastAction : string
}.

(** The object literal bound to [initialState] when the module is loaded. *)
Definition loadInitialState : M CounterState :=
  r <- newObject ;;
  ret (mkCounterState r 0%float "none").

Section Reducer.

(** The module constant [initialState]. *)
Variable initialState : CounterState.

Definition counterReducer (state : option CounterState) (action : Action)
  : option (M CounterState) :=
  let state := match state with Some s => s | None => initialState end in
  if type action =? INCREMENT then
    Some (r <- newObject ;;
          ret (mkCounterState r (PrimFloat.add (value state) 1%float) "increment"))
  else if type action =? DECREMENT then
    Some (r <- newObject ;;
          ret (mkCounterState r (PrimFloat.sub (value state) 1%float) "decrement"))
  else if type action =? INCREMENT_BY_AMOUNT then
    match payload action with
    | JsNumber n =>
        Some (r <- newObject ;;
              ret (mkCounterState r (PrimFloat.add (value state) (Number_ofZ n))
                     ("increment by " ++ Number_toString n)))
    | _ => None
    end
  else if type action =? RESET then
    Some (r <- newObject ;;
          ret (mkCounterState r 0%float "reset"))
  else
    Some (ret state).

(** The store's dispatch loop on this slice: each action is reduced from the
    state the previous one produced. *)
Fixpoint dispatchAll (state : CounterState) (actions : list Action) (w : World)
  : option (CounterState * World) :=
  match actions with
  | [] => Some (state, w)
  | a :: rest =>
      match run (counterReducer (Some state) a) w with
      | Some (state', w') => dispatchAll state' rest w'
      | None => None
      end
  end.

End Reducer.

(** Selectors; [state] is the [counter] slice of the root state. *)
Definition selectCounterValue (state : CounterState) : float := value state.
Definition selectLastAction (state : CounterState) : string := lastAction state.
Definition selectIsPositive (state : CounterState) : bool :=
  PrimFloat.ltb 0%float (value state).
Definition selectIsEven (state : CounterState) : bool :=
  PrimFloat.eqb (Number_rem2 (value state)) 0%float.

(** The tags [counterReducer] has a case for. *)
Definition recognized : list string :=
  [INCREMENT; DECREMENT; INCREMENT_BY_AMOUNT; RESET].

End Counter.

(* ========================================================================= *)
(** * The todo slice (store/slices/todoSlice.ts) *)
(* ========================================================================= *)

Module Todo.

Local Open Scope string_scope.

Record Todo : Type := mkTodo {
  todoRef : ref;          (* identity of the todo object *)
  id : string;
  text : string;
  completed : bool;
  createdAt : Z
}.

Record TodoState : Type := mkTodoState {
  stateRef : ref;         (* identity of the state object *)
  todos : JsArray Todo;
  filter : string;
  searchTerm : string
}.

Definition ADD_TODO : string := "todos/addTodo".
Definition TOGGLE_TODO : string := "todos/toggleTodo".
Definition DELETE_TODO : string := "todos/deleteTodo".
Definition EDIT_TODO : string := "todos/editTodo".
Definition CLEAR_COMPLETED : string := "todos/clearCompleted".
Definition SET_FILTER : string := "todos/setFilter".
Definition SET_SEARCH_TERM : string := "todos/setSearchTerm".
Definition MARK_ALL_COMPLETE : string := "todos/markAllComplete".

(** Action creators. *)
Definition addTodo (text : string) : Action := mkAction ADD_TODO (JsString text).
Definition toggleTodo (id : string) : Action := mkAction TOGGLE_TODO (JsString id).
Definition deleteTodo (id : string) : Action := mkAction DELETE_TODO (JsString id).
Definition editTodo (id text : string) : Action := mkAction EDIT_TODO (JsIdText id text).
Definition clearCompleted : Action := mkAction CLEAR_COMPLETED JsUndefined.
Definition setFilter (filter : string) : Action := mkAction SET_FILTER (JsString filter).
Definition setSearchTerm (searchTerm : string) : Action :=
  mkAction SET_SEARCH_TERM (JsString searchTerm).
Definition markAllComplete : Action := mkAction MARK_ALL_COMPLETE JsUndefined.

(** [Date.now().toString() + Math.random().toString(36).substr(2, 9)] *)
Definition generateId : M string :=
  t <- Date_now ;;
  r <- Math_random_toString36 ;;
  ret (Number_toString t ++ substr 2 9 r).

(** The object literal bound to [initialState] when the module is loaded:
    the state object, its array, then the three sample todos, each reading
    the clock. *)
Definition loadInitialState : M TodoState :=
  s <- newObject ;;
  a <- newObject ;;
  r1 <- newObject ;; t1 <- Date_now ;;
  r2 <- newObject ;; t2 <- Date_now ;;
  r3 <- newObject ;; t3 <- Date_now ;;
  ret (mkTodoState s
         (mkArray a
            [ mkTodo r1 "1" "Learn Redux fundamentals" true (t1 - 86400000);
              mkTodo r2 "2" "Build a todo app with Redux" false (t2 - 3600000);
              mkTodo r3 "3" "Master React-Redux patterns" false t3 ])
         "ALL" "").

Section Reducer.

(** The module constant [initialState]. *)
Variable initialState : TodoState.

Definition todoReducer (state : option TodoState) (action : Action)
  : option (M TodoState) :=
  let state := match state with Some s => s | None => initialState end in
  if type action =? ADD_TODO then
    match payload action with
    | JsString newText =>
        Some (s <- newObject ;;
              a <- newObject ;;
              r <- newObject ;;
              newId <- generateId ;;
              now <- Date_now ;;
              ret (mkTodoState s
                     (mkArray a (mkTodo r newId newText false now
                                   :: items (todos state)))
                     (filter state) (searchTerm state)))
    | _ => None
    end
  else if type action =? TOGGLE_TODO then
    match payload action with
    | JsString target =>
        Some (s <- newObject ;;
              ts <- Array_map
                      (fun todo =>
                         if id todo =? target
                         then r <- newObject ;;
                              ret (mkTodo r (id todo) (text todo)
                                     (negb (completed todo)) (createdAt todo))
                         else ret todo)
                      (todos state) ;;
              ret (mkTodoState s ts (filter state) (searchTerm state)))
    | _ => None
    end
  else if type action =? DELETE_TODO then
    match payload action with
    | JsString target =>
        Some (s <- newObject ;;
              ts <- Array_filter (fun todo => negb (id todo =? target))
                      (todos state) ;;
              ret (mkTodoState s ts (filter state) (searchTerm state)))
    | _ => None
    end
  else if type action =? EDIT_TODO then
    match payload action with
    | JsIdText target newText =>
        Some (s <- newObject ;;
              ts <- Array_map
                      (fun todo =>
                         if id todo =? target
                         then r <- newObject ;;
                              ret (mkTodo r (id todo) newText
                                     (completed todo) (createdAt todo))
                         else ret todo)
                      (todos state) ;;
              ret (mkTodoState s ts (filter state) (searchTerm state)))
    | _ => None
    end
  else if type action =? CLEAR_COMPLETED then
    Some (s <- newObject ;;
          ts <- Array_filter (fun todo => negb (completed todo)) (todos state) ;;
          ret (mkTodoState s ts (filter state) (searchTerm state)))
  else if type action =? SET_FILTER then
    match payload action with
    | JsString newFilter =>
        Some (s <- newObject ;;
              ret (mkTodoState s (todos state) newFilter (searchTerm state)))
    | _ => None
    end
  else if type action =? SET_SEARCH_TERM then
    match payload action with
    | JsString newTerm =>
        Some (s <- newObject ;;
              ret (mkTodoState s (todos state) (filter state) newTerm))
    | _ => None
    end
  else if type action =? MARK_ALL_COMPLETE then
    let allCompleted := Array_every completed (todos state) in
    Some (s <- newObject ;;
          ts <- Array_map
                  (fun todo =>
                     r <- newObject ;;
                     ret (mkTodo r (id todo) (text todo)
                            (negb allCompleted) (createdAt todo)))
                  (todos state) ;;
          ret (mkTodoState s ts (filter state) (searchTerm state)))
  else
    Some (ret state).

(** The store's dispatch loop on this slice. *)
Fixpoint dispatchAll (state : TodoState) (actions : list Action) (w : World)
  : option (TodoState * World) :=
  match actions with
  | [] => Some (state, w)
  | a :: rest =>
      match run (todoReducer (Some state) a) w with
      | Some (state', w') => dispatchAll state' rest w'
      | None => None
      end
  end.

End Reducer.

(** Selectors; [state] is the [todos] slice of the root state. *)
Definition selectAllTodos (state : TodoState) : JsArray Todo := todos state.
Definition selectCurrentFilter (state : TodoState) : string := filter state.
Definition selectSearchTerm (state : TodoState) : string := searchTerm state.

Section Search.

(** [String.prototype.toLowerCase], as the host provides it. *)
Variable toLowerCase : string -> string.

Definition selectFilteredTodos (state : TodoState) : M (JsArray Todo) :=
  filteredTodos <-
    (if truthy (searchTerm state)
     then Array_filter
            (fun todo =>
               includes (toLowerCase (text todo)) (toLowerCase (searchTerm state)))
            (todos state)
     else ret (todos state)) ;;
  if filter state =? "ACTIVE" then
    Array_filter (fun todo => negb (completed todo)) filteredTodos
  else if filter state =? "COMPLETED" then
    Array_filter (fun todo => completed todo) filteredTodos
  else
    ret filteredTodos.

End Search.

(** The object [selectTodoStats] returns. *)
Module Stats.
Record t : Type := mk {
  statsRef : ref;
  total : Z;
  completed : Z;
  active : Z;
  completionPercentage : float
}.
End Stats.

Definition selectTodoStats (state : TodoState) : M Stats.t :=
  let todos := todos state in
  let total := Array_length todos in
  done <- Array_filter (fun todo => completed todo) todos ;;
  let completed := Array_length done in
  let active := (total - completed)%Z in
  r <- newObject ;;
  ret (Stats.mk r total completed active
         (if (0 <? total)%Z
          then Math_round
                 (PrimFloat.mul (PrimFloat.div (toNumber completed) (toNumber total))
                    (toNumber 100))
          else PrimFloat.zero)).

Definition selectAllTodosCompleted (state : TodoState) : bool :=
  (0 <? Array_length (todos state))%Z && Array_every completed (todos state).

(** The tags [todoReducer] has a case for. *)
Definition recognized : list string :=
  [ADD_TODO; TOGGLE_TODO; DELETE_TODO; EDIT_TODO; CLEAR_COMPLETED;
   SET_FILTER; SET_SEARCH_TERM; MARK_ALL_COMPLETE].

End Todo.

(* ========================================================================= *)
(** * The store (store/index.ts) *)
(* ========================================================================= *)

Module Store.

Record RootState : Type := mkRootState {
  counter : Counter.CounterState;
  todos : Todo.TodoState
}.

Section Root.

Variable counterInitialState : Counter.CounterState.
Variable todoInitialState : Todo.TodoState.

(** Modelled from the spec: [combineReducers], which [rootReducer] is built
    with, is Redux's and not under src/.  As the specification describes it,
    the root reducer takes the two slices of the state (or leaves them
    undefined on the first call), calls the counter reducer and the todo
    reducer, in the order of the keys, with the same action and that slice's
    previous value, and reassembles [{ counter, todos }].  The identity of
    the root object is not modelled. *)
Definition rootReducer (state : option RootState) (action : Action)
  : option (M RootState) :=
  match Counter.counterReducer counterInitialState (option_map counter state) action,
        Todo.todoReducer todoInitialState (option_map todos state) action with
  | Some reduceCounter, Some reduceTodos =>
      Some (c <- reduceCounter ;; t <- reduceTodos ;; ret (mkRootState c t))
  | _, _ => None
  end.

End Root.

End Store.

(* ========================================================================= *)
(** * Vocabulary of the specification *)
(* ========================================================================= *)

Module Spec.

Import Counter Todo.
Local Open Scope string_scope.

(** ** Counter *)

(** The payload of a counter action has the shape its interface declares. *)
Definition counterTyped (a : Action) : bool :=
  if type a =? INCREMENT_BY_AMOUNT
  then match payload a with JsNumber _ => true | _ => false end
  else true.

(** Numeric effect of an operation on the value: +1, -1, +N, and nothing for
    a tag that is not recognized. *)
Definition contribution (a : Action) : Z :=
  if type a =? INCREMENT then 1
  else if type a =? DECREMENT then -1
  else if type a =? INCREMENT_BY_AMOUNT
       then match payload a with JsNumber n => n | _ => 0 end
  else 0.

Definition isReset (a : Action) : bool := type a =? RESET.

(** The operations that follow the last [reset] (all of them when there is
    none). *)
Fixpoint afterLastReset (actions : list Action) : list Action :=
  match actions with
  | [] => []
  | a :: rest =>
      if existsb isReset rest then afterLastReset rest
      else if isReset a then rest
      else a :: rest
  end.

(** Sum of a list of effects taken in order, starting from 0. *)
Definition sumFromZero (effects : list Z) : Z := fold_left Z.add effects 0%Z.

(** A safe integer: below 2^53 in absolute value (between
    [Number.MIN_SAFE_INTEGER] and [Number.MAX_SAFE_INTEGER]). *)
Definition safeInteger (z : Z) : Prop := (- 2 ^ 53 < z < 2 ^ 53)%Z.

(** Along the run of [actions] from the value [v], every payload and every
    value reached, computed exactly, is a safe integer. *)
Fixpoint staysSafe (v : Z) (actions : list Action) : Prop :=
  match actions with
  | [] => True
  | a :: rest =>
      let v' := if isReset a then 0%Z else (v + contribution a)%Z in
      safeInteger (contribution a) /\ safeInteger v' /\ staysSafe v' rest
  end.

(** The value a counter action leaves, as the reducer computes it. *)
Definition nextValue (v : float) (a : Action) : float :=
  if type a =? INCREMENT then PrimFloat.add v 1%float
  else if type a =? DECREMENT then PrimFloat.sub v 1%float
  else if type a =? INCREMENT_BY_AMOUNT
       then match payload a with
            | JsNumber n => PrimFloat.add v (Number_ofZ n)
            | _ => v
            end
  else if type a =? RESET then 0%float
  else v.

(** ** Todos *)

(** What a todo holds, its identity left out. *)
Definition todoFields (t : Todo) : string * string * bool * Z :=
  (id t, text t, completed t, createdAt t).

(** What a todo state holds, the identities left out: what two runs of a
    reducer can be compared on. *)
Definition todoContents (s : TodoState)
  : list (string * string * bool * Z) * string * string :=
  (map todoFields (items (todos s)), filter s, searchTerm s).

Definition counterContents (s : CounterState) : float * string :=
  (value s, lastAction s).

(** No two entries of the list have the same [id]. *)
Definition uniqueIds (s : TodoState) : Prop :=
  NoDup (map id (items (todos s))).

(** [kept] is exactly the elements of [all] that satisfy [P], in their
    original relative order. *)
Inductive Kept {A : Type} (P : A -> Prop) : list A -> list A -> Prop :=
| Kept_nil : Kept P [] []
| Kept_take (x : A) (all kept : list A) :
    P x -> Kept P all kept -> Kept P (x :: all) (x :: kept)
| Kept_drop (x : A) (all kept : list A) :
    ~ P x -> Kept P all kept -> Kept P (x :: all) kept.

(** The search stage, as the code runs it: the lower-cased term occurs in
    the lower-cased text; every task passes when the term is empty. *)
Definition includesLowered (toLowerCase : string -> string) (term text : string)
  : Prop :=
  exists before after : string,
    toLowerCase text = before ++ toLowerCase term ++ after.

Definition passesSearch (toLowerCase : string -> string) (term : string) (t : Todo)
  : Prop :=
  term = "" \/ includesLowered toLowerCase term (text t).

(** What is known of the host's [toLowerCase]: on ASCII strings it lowers
    the letters A..Z and nothing else. *)
Definition lowersAscii (toLowerCase : string -> string) : Prop :=
  forall s : string, isAscii s = true -> toLowerCase s = toLowerCaseAscii s.

(** Two ASCII characters are the same letter up to case: they are equal, or
    one is a capital A..Z and the other the small letter 32 places above. *)
Definition isCapital (c : ascii) : bool :=
  ((65 <=? nat_of_ascii c)%nat && (nat_of_ascii c <=? 90)%nat)%bool.

Definition sameLetter (c d : ascii) : bool :=
  Ascii.eqb c d
  || (isCapital c && (nat_of_ascii d =? nat_of_ascii c + 32)%nat)
  || (isCapital d && (nat_of_ascii c =? nat_of_ascii d + 32)%nat).

Fixpoint sameUpToCase (a b : string) : bool :=
  match a, b with
  | EmptyString, EmptyString => true
  | String c a', String d b' => sameLetter c d && sameUpToCase a' b'
  | _, _ => false
  end.

(** Case-insensitive substring match: some substring of [text] is [term] up
    to the case of its letters. *)
Definition matchesIgnoringCase (term text : string) : Prop :=
  exists before found after : string,
    text = before ++ found ++ after /\ sameUpToCase found term = true.

(** The filter stage. *)
Definition passesFilter (f : string) (t : Todo) : Prop :=
  (f = "ACTIVE" -> completed t = false) /\
  (f = "COMPLETED" -> completed t = true).

(** round(100 * completed / total) on the exact quotient, halves rounded
    up: floor((200 * completed + total) / (2 * total)); 0 when there is no
    task. *)
Definition exactPercentage (completed total : Z) : Z :=
  if (0 <? total)%Z then ((200 * completed + total) / (2 * total))%Z else 0%Z.

(** ** Further vocabulary *)

(** The label a recognized counter action leaves in [lastAction]. *)
Definition labelOf (a : Action) : string :=
  if type a =? INCREMENT then "increment"
  else if type a =? DECREMENT then "decrement"
  else if type a =? INCREMENT_BY_AMOUNT
       then match payload a with
            | JsNumber n => "increment by " ++ Number_toString n
            | _ => ""
            end
  else "reset".

(** The payload of a todo action has the shape its interface declares. *)
Definition todoTyped (a : Action) : bool :=
  let isString := match payload a with JsString _ => true | _ => false end in
  let isIdText := match payload a with JsIdText _ _ => true | _ => false end in
  if type a =? ADD_TODO then isString
  else if type a =? TOGGLE_TODO then isString
  else if type a =? DELETE_TODO then isString
  else if type a =? EDIT_TODO then isIdText
  else if type a =? SET_FILTER then isString
  else if type a =? SET_SEARCH_TERM then isString
  else true.

(** Along the run of [actions] from [state] in [w], every addTodo draws an
    id that no task of the list has at that moment. *)
Fixpoint addsFreshIds (init state : TodoState) (actions : list Action) (w : World)
  : Prop :=
  match actions with
  | [] => True
  | a :: rest =>
      (type a = ADD_TODO ->
       ~ In (fst (generateId w)) (map id (items (todos state)))) /\
      match run (todoReducer init (Some state) a) w with
      | Some (state', w') => addsFreshIds init state' rest w'
      | None => True
      end
  end.

(** Every object of the state was allocated before: its identity is below
    the one the next allocation gives. *)
Definition allocatedBefore (w : World) (s : TodoState) : Prop :=
  (stateRef s < nextRef w)%nat /\
  (arrayRef (todos s) < nextRef w)%nat /\
  Forall (fun t => (todoRef t < nextRef w)%nat) (items (todos s)).

(** The pairs (completed, total) up to 100 tasks at which the percentage the
    code computes is not the exact quotient rounded. *)
Definition misrounded : list (Z * Z) := [(23, 40); (46, 80)]%Z.

(** The percentage of [selectTodoStats] as a function of the two counts. *)
Definition codePercentage (completed total : Z) : float :=
  if (0 <? total)%Z
  then Math_round
         (PrimFloat.mul (PrimFloat.div (toNumber completed) (toNumber total))
            (toNumber 100))
  else PrimFloat.zero.

(** [codePercentage] agrees with the exact rounding at every pair of counts
    with [total] at most [bound], the pairs of [misrounded] apart. *)
Definition agreesUpTo (bound : nat) : bool :=
  forallb
    (fun total =>
       forallb
         (fun completed =>
            let c := Z.of_nat completed in
            let t := Z.of_nat total in
            existsb (fun p => (fst p =? c)%Z && (snd p =? t)%Z) misrounded
            || PrimFloat.eqb (codePercentage c t) (toNumber (exactPercentage c t)))
         (seq 0 (S total)))
    (seq 0 (S bound)).

End Spec.

(* ========================================================================= *)
(** * Binary64 numbers that hold integers *)
(* ========================================================================= *)

Module Binary64.

(** A mantissa shifted left by [n] binary places. *)
Definition shl (c : positive) (n : nat) : positive := Nat.iter n xO c.

(** The binary64 number of sign [s] and absolute value [c], for [c] below
    2^53: mantissa [c] shifted to 53 bits, with the exponent that makes up
    for the shift. *)
Definition canon (s : bool) (c : positive) : spec_float :=
  S754_finite s (shl c (Z.to_nat (53 - Zpos (digits2_pos c))))
    (Zpos (digits2_pos c) - 53).

(** The binary64 number that holds the integer [z], for [z] safe. *)
Definition canonOf (z : Z) : spec_float :=
  match z with
  | Z0 => S754_zero false
  | Zpos c => canon false c
  | Zneg c => canon true c
  end.

End Binary64.

(* ========================================================================= *)
(** * Sample data *)
(* ========================================================================= *)

Module Sample.

Import Counter Todo.
Local Open Scope string_scope.

(** A world whose clock stands at one millisecond and whose random source
    repeats itself. *)
Definition stuckWorld : World :=
  mkWorld (fun _ => 1700000000000%Z) 0%nat (fun _ => "0.4fzyo82mvyr") 0%nat 0%nat.

(** A world whose clock advances and whose random source varies. *)
Definition tickingWorld : World :=
  mkWorld (fun k => (1700000000000 + Z.of_nat k)%Z) 0%nat
          (fun k => if Nat.even k then "0.4fzyo82mvyr" else "0.k3j9x0q1zzb")
          0%nat 0%nat.

(** The stuck clock and random source again, seen later in the life of the
    program: more readings taken, more objects allocated. *)
Definition stuckWorldLater : World :=
  mkWorld (fun _ => 1700000000000%Z) 5%nat (fun _ => "0.4fzyo82mvyr") 3%nat 40%nat.

Definition counter0 : CounterState := fst (Counter.loadInitialState stuckWorld).
Definition todos0 : TodoState := fst (Todo.loadInitialState stuckWorld).
Definition afterLoad : World := snd (Todo.loadInitialState stuckWorld).

(** The sample todos in a world whose clock advances. *)
Definition tickingAfterLoad : World := snd (Todo.loadInitialState tickingWorld).

(** The action Redux dispatches when the store is created. *)
Definition initAction : Action := mkAction "@@redux/INIT" JsUndefined.

(** A string from its UTF-8 bytes. *)
Definition utf8 (bytes : list nat) : string :=
  fold_right (fun b rest => String (ascii_of_nat b) rest) "" bytes.

(** Greek capital alpha, capital sigma (U+0391 U+03A3), their lower case
    with the sigma in its final form (U+03B1 U+03C2), a capital sigma alone
    (U+03A3) and its lower case (U+03C3). *)
Definition capitalAlphaSigma : string := utf8 [206; 145; 206; 163]%nat.
Definition smallAlphaFinalSigma : string := utf8 [206; 177; 207; 130]%nat.
Definition capitalSigma : string := utf8 [206; 163]%nat.
Definition smallSigma : string := utf8 [207; 131]%nat.

(** A list of [total] tasks of which the first [done] are completed. *)
Definition tasks (total done : nat) : TodoState :=
  mkTodoState 0%nat
    (mkArray 1%nat
       (map (fun k => mkTodo (2 + k)%nat (Number_toString (Z.of_nat k)) "task"
                        (k <? done)%nat 0%Z)
            (seq 0 total)))
    "ALL" "".

End Sample.

(* ========================================================================= *)
(** * Properties *)
(* ========================================================================= *)

Import Counter Todo Spec.

(** ** Tags *)

Ltac known_tag := unfold Counter.recognized, Todo.recognized; simpl; auto 12.

Lemma eqb_outside (x y : string) (l : list string) :
  ~ In x l -> In y l -> (x =? y)%string = false.
Proof.
  intros Hout Hin. apply String.eqb_neq. intros ->. exact (Hout Hin).
Qed.

(** C4. An action whose tag is none of the counter's tags is answered by the
    counter reducer with the state object it was given (same identity, same
    fields), nothing being allocated on the way; and likewise for the todo
    reducer and the todo tags. *)
Theorem unrecognized_action_returns_same_state :
  forall (counterInit cs : CounterState) (todoInit ts : TodoState)
         (a : Action) (w : World),
    (~ In (type a) Counter.recognized ->
     run (counterReducer counterInit (Some cs) a) w = Some (cs, w)) /\
    (~ In (type a) Todo.recognized ->
     run (todoReducer todoInit (Some ts) a) w = Some (ts, w)).
Proof.
  intros counterInit cs todoInit ts a w. split; intros Hout.
  - unfold counterReducer.
    rewrite (eqb_outside _ INCREMENT _ Hout) by known_tag.
    rewrite (eqb_outside _ DECREMENT _ Hout) by known_tag.
    rewrite (eqb_outside _ INCREMENT_BY_AMOUNT _ Hout) by known_tag.
    rewrite (eqb_outside _ RESET _ Hout) by known_tag.
    reflexivity.
  - unfold todoReducer.
    rewrite (eqb_outside _ ADD_TODO _ Hout) by known_tag.
    rewrite (eqb_outside _ TOGGLE_TODO _ Hout) by known_tag.
    rewrite (eqb_outside _ DELETE_TODO _ Hout) by known_tag.
    rewrite (eqb_outside _ EDIT_TODO _ Hout) by known_tag.
    rewrite (eqb_outside _ CLEAR_COMPLETED _ Hout) by known_tag.
    rewrite (eqb_outside _ SET_FILTER _ Hout) by known_tag.
    rewrite (eqb_outside _ SET_SEARCH_TERM _ Hout) by known_tag.
    rewrite (eqb_outside _ MARK_ALL_COMPLETE _ Hout) by known_tag.
    reflexivity.
Qed.

(** The store's own init action, sent to both slices. *)
Lemma unrecognized_action_witness :
  run (counterReducer Sample.counter0 (Some Sample.counter0) Sample.initAction)
      Sample.afterLoad
  = Some (Sample.counter0, Sample.afterLoad) /\
  run (todoReducer Sample.todos0 (Some Sample.todos0) Sample.initAction)
      Sample.afterLoad
  = Some (Sample.todos0, Sample.afterLoad).
Proof.
  split.
  - apply (proj1 (unrecognized_action_returns_same_state
                    Sample.counter0 Sample.counter0 Sample.todos0 Sample.todos0
                    Sample.initAction Sample.afterLoad)).
    simpl. intuition discriminate.
  - apply (proj2 (unrecognized_action_returns_same_state
                    Sample.counter0 Sample.counter0 Sample.todos0 Sample.todos0
                    Sample.initAction Sample.afterLoad)).
    simpl. intuition discriminate.
Defined.

(** ** Binary64 arithmetic on safe integers *)

Import Binary64.

(** Iteration over a positive number of steps, counted in [nat]. *)
Lemma iter_pos_nat {A : Type} (f : A -> A) (p : positive) (x : A) :
  iter_pos f p x = Nat.iter (Pos.to_nat p) f x.
Proof.
  revert x. induction p as [p IH|p IH|]; intros x; cbn [iter_pos].
  - rewrite !IH, Pos2Nat.inj_xI. rewrite <- Nat.iter_add.
    replace (S (2 * Pos.to_nat p)) with (S (Pos.to_nat p + Pos.to_nat p)) by lia.
    now rewrite Nat.iter_succ_r.
  - rewrite !IH, Pos2Nat.inj_xO. rewrite <- Nat.iter_add.
    now replace (2 * Pos.to_nat p)%nat with (Pos.to_nat p + Pos.to_nat p)%nat by lia.
  - reflexivity.
Qed.

Lemma Pos_iter_shl (c p : positive) : Pos.iter xO c p = shl c (Pos.to_nat p).
Proof.
  unfold shl. apply Pos2Nat.inj_iter.
Qed.

Lemma shl_value (c : positive) (n : nat) : Zpos (shl c n) = Zpos c * 2 ^ Z.of_nat n.
Proof.
  induction n as [|n IH]; unfold shl in *; simpl Nat.iter.
  - simpl. lia.
  - rewrite Pos2Z.inj_xO, IH, Nat2Z.inj_succ, Z.pow_succ_r by lia. lia.
Qed.

Lemma digits_shl (c : positive) (n : nat) :
  Zpos (digits2_pos (shl c n)) = Zpos (digits2_pos c) + Z.of_nat n.
Proof.
  induction n as [|n IH]; unfold shl in *; simpl Nat.iter.
  - lia.
  - simpl digits2_pos. rewrite Pos2Z.inj_succ, IH. lia.
Qed.

Lemma digits_lower (c : positive) : 2 ^ (Zpos (digits2_pos c) - 1) <= Zpos c.
Proof.
  induction c as [c IH|c IH|]; simpl digits2_pos.
  - rewrite Pos2Z.inj_succ. replace (Z.succ (Zpos (digits2_pos c)) - 1) with (Z.succ (Zpos (digits2_pos c) - 1)) by lia.
    rewrite Z.pow_succ_r by lia. lia.
  - rewrite Pos2Z.inj_succ. replace (Z.succ (Zpos (digits2_pos c)) - 1) with (Z.succ (Zpos (digits2_pos c) - 1)) by lia.
    rewrite Z.pow_succ_r by lia. lia.
  - simpl. lia.
Qed.

Lemma digits_safe (c : positive) : Zpos c < 2 ^ 53 -> Zpos (digits2_pos c) <= 53.
Proof.
  intros H. pose proof (digits_lower c) as Hl.
  destruct (Z_le_gt_dec (Zpos (digits2_pos c)) 53) as [|Hgt]; [assumption|].
  assert (2 ^ 53 <= 2 ^ (Zpos (digits2_pos c) - 1)) by (apply Z.pow_le_mono_r; lia).
  lia.
Qed.

Lemma shr_shl (c : positive) (n j : nat) :
  Nat.iter n shr_1 (Build_shr_record (Zpos (shl c (n + j))) false false)
  = Build_shr_record (Zpos (shl c j)) false false.
Proof.
  induction n as [|n IH].
  - reflexivity.
  - rewrite Nat.iter_succ_r. simpl. exact IH.
Qed.

Lemma aligned_no_shift (c : positive) :
  Zpos (digits2_pos c) <= 53 ->
  shr_fexp prec emax (Zpos (shl c (Z.to_nat (53 - Zpos (digits2_pos c)))))
    (Zpos (digits2_pos c) - 53) loc_Exact
  = (Build_shr_record (Zpos (shl c (Z.to_nat (53 - Zpos (digits2_pos c))))) false false,
     Zpos (digits2_pos c) - 53).
Proof.
  intros Hd. unfold shr_fexp. cbn [Zdigits2]. rewrite digits_shl.
  remember (Zpos (digits2_pos c)) as d eqn:Ed.
  assert (Hpos : 0 < d) by lia.
  replace (fexp prec emax (d + Z.of_nat (Z.to_nat (53 - d)) + (d - 53)) - (d - 53))
    with 0 by (unfold fexp, SpecFloat.emin, prec, emax; lia).
  reflexivity.
Qed.

Lemma finish_canon (s : bool) (c : positive) :
  Zpos (digits2_pos c) <= 53 ->
  (let '(mrs, e) :=
     shr_fexp prec emax (Zpos (shl c (Z.to_nat (53 - Zpos (digits2_pos c)))))
       (Zpos (digits2_pos c) - 53) loc_Exact in
   match shr_m mrs with
   | Z0 => S754_zero s
   | Zpos m => if e <=? emax - prec then S754_finite s m e else S754_infinity s
   | Zneg _ => S754_nan
   end) = canon s c.
Proof.
  intros Hd. rewrite (aligned_no_shift c Hd). cbn [shr_m]. unfold canon.
  assert (Hle : (Zpos (digits2_pos c) - 53 <=? emax - prec) = true)
    by (apply Z.leb_le; unfold emax, prec; lia).
  now rewrite Hle.
Qed.

Lemma aux_canon (s : bool) (c : positive) :
  Zpos (digits2_pos c) <= 53 ->
  binary_round_aux prec emax s
    (Zpos (shl c (Z.to_nat (53 - Zpos (digits2_pos c)))))
    (Zpos (digits2_pos c) - 53) loc_Exact
  = canon s c.
Proof.
  intros Hd. unfold binary_round_aux. rewrite (aligned_no_shift c Hd).
  cbn [shr_m loc_of_shr_record round_nearest_even].
  exact (finish_canon s c Hd).
Qed.

(** Rounding a safe mantissa that carries [k] more low zero bits, at the
    exponent that undoes them, gives the canonical number: nothing is lost. *)
Lemma round_canon (s : bool) (c : positive) (k : nat) :
  Zpos (digits2_pos c) <= 53 ->
  binary_round prec emax s (shl c k) (- Z.of_nat k) = canon s c.
Proof.
  intros Hd.
  pose proof (aux_canon s c Hd) as Haux.
  pose proof (finish_canon s c Hd) as Hfin.
  unfold binary_round. rewrite digits_shl.
  remember (Zpos (digits2_pos c)) as d eqn:Ed.
  assert (Hpos : 0 < d) by lia.
  assert (Hfexp : fexp prec emax (d + Z.of_nat k + - Z.of_nat k) = d - 53).
  { unfold fexp, SpecFloat.emin, prec, emax. lia. }
  rewrite Hfexp. unfold shl_align.
  destruct (d - 53 - - Z.of_nat k) as [|p|p] eqn:Ediff.
  - assert (Hk : k = Z.to_nat (53 - d)) by lia.
    replace (- Z.of_nat k) with (d - 53) by lia. rewrite Hk. exact Haux.
  - assert (Hfirst : shr_fexp prec emax (Zpos (shl c k)) (- Z.of_nat k) loc_Exact
                    = (Build_shr_record (Zpos (shl c (Z.to_nat (53 - d)))) false false,
                       d - 53)).
    { unfold shr_fexp. cbn [Zdigits2]. rewrite digits_shl, <- Ed, Hfexp, Ediff.
      unfold shr. cbn [shr_record_of_loc]. rewrite iter_pos_nat.
      replace k with (Pos.to_nat p + Z.to_nat (53 - d))%nat at 1 by lia.
      rewrite shr_shl. f_equal. lia. }
    unfold binary_round_aux. rewrite Hfirst.
    cbn [shr_m loc_of_shr_record round_nearest_even].
    exact Hfin.
  - rewrite Pos_iter_shl.
    assert (Hshl : shl (shl c k) (Pos.to_nat p) = shl c (Z.to_nat (53 - d))).
    { unfold shl. rewrite <- Nat.iter_add. f_equal. lia. }
    rewrite Hshl. exact Haux.
Qed.

Lemma safe_digits (c : positive) :
  safeInteger (Zpos c) \/ safeInteger (Zneg c) -> Zpos (digits2_pos c) <= 53.
Proof.
  unfold safeInteger. intros H. apply digits_safe. lia.
Qed.

Lemma normalize_shifted (z : Z) (k : nat) :
  safeInteger z ->
  binary_normalize prec emax (z * 2 ^ Z.of_nat k) (- Z.of_nat k) false = canonOf z.
Proof.
  intros Hz. destruct z as [|c|c].
  - reflexivity.
  - replace (Zpos c * 2 ^ Z.of_nat k) with (Zpos (shl c k)) by apply shl_value.
    apply round_canon, safe_digits. now left.
  - replace (Zneg c * 2 ^ Z.of_nat k) with (Zneg (shl c k)).
    + apply round_canon, safe_digits. now right.
    + rewrite <- !Pos2Z.opp_pos, shl_value. lia.
Qed.

Lemma normalize_canon (z : Z) :
  safeInteger z -> binary_normalize prec emax z 0 false = canonOf z.
Proof.
  intros Hz. rewrite <- (normalize_shifted z 0 Hz). f_equal. simpl. lia.
Qed.

Lemma canonOf_valid (z : Z) : safeInteger z -> valid_binary (canonOf z) = true.
Proof.
  intros Hz.
  assert (Hc : forall s c, Zpos (digits2_pos c) <= 53 -> valid_binary (canon s c) = true).
  { intros s c Hd. unfold canon. cbn [SpecFloat.valid_binary]. unfold bounded, canonical_mantissa.
    rewrite digits_shl. apply andb_true_iff. split.
    - apply Z.eqb_eq. unfold fexp, SpecFloat.emin, prec, emax. lia.
    - apply Z.leb_le. unfold prec, emax. lia. }
  destruct z as [|c|c]; [reflexivity| |]; apply Hc, safe_digits; auto.
Qed.

Lemma Prim2SF_ofZ (z : Z) : safeInteger z -> Prim2SF (Number_ofZ z) = canonOf z.
Proof.
  intros Hz. unfold Number_ofZ. rewrite (normalize_canon z Hz).
  apply Prim2SF_SF2Prim. now apply canonOf_valid.
Qed.

(** The mantissa of a canonical number aligned to a lower exponent. *)
Lemma canon_aligned (s : bool) (c : positive) (ez : Z) :
  Zpos (digits2_pos c) <= 53 ->
  ez <= Zpos (digits2_pos c) - 53 ->
  Zpos (fst (shl_align (shl c (Z.to_nat (53 - Zpos (digits2_pos c))))
               (Zpos (digits2_pos c) - 53) ez))
  = Zpos c * 2 ^ (- ez).
Proof.
  intros Hd Hez. unfold shl_align.
  remember (Zpos (digits2_pos c)) as d eqn:Ed.
  destruct (ez - (d - 53)) as [|p|p] eqn:E; cbn [fst]; try lia.
  - rewrite shl_value. f_equal. f_equal. lia.
  - rewrite Pos_iter_shl, !shl_value, <- Z.mul_assoc, <- Z.pow_add_r by lia.
    f_equal. f_equal. lia.
Qed.

Lemma SFadd_canon (a b : Z) :
  safeInteger a -> safeInteger b -> safeInteger (a + b) ->
  SFadd prec emax (canonOf a) (canonOf b) = canonOf (a + b).
Proof.
  intros Ha Hb Hab.
  assert (Hcore : forall sa ca sb cb,
             Zpos (digits2_pos ca) <= 53 -> Zpos (digits2_pos cb) <= 53 ->
             safeInteger (cond_Zopp sa (Zpos ca) + cond_Zopp sb (Zpos cb)) ->
             SFadd prec emax (canon sa ca) (canon sb cb)
             = canonOf (cond_Zopp sa (Zpos ca) + cond_Zopp sb (Zpos cb))).
  { intros sa ca sb cb Hda Hdb Hsum. unfold canon. cbn [SFadd].
    set (ez := Z.min (Zpos (digits2_pos ca) - 53) (Zpos (digits2_pos cb) - 53)).
    rewrite (canon_aligned sa ca ez Hda) by (unfold ez; lia).
    rewrite (canon_aligned sb cb ez Hdb) by (unfold ez; lia).
    assert (Hez : ez <= 0) by (unfold ez; lia).
    replace (cond_Zopp sa (Zpos ca * 2 ^ (- ez)) + cond_Zopp sb (Zpos cb * 2 ^ (- ez)))
      with ((cond_Zopp sa (Zpos ca) + cond_Zopp sb (Zpos cb))
            * 2 ^ Z.of_nat (Z.to_nat (- ez))).
    - replace ez with (- Z.of_nat (Z.to_nat (- ez))) at 2 by lia.
      now apply normalize_shifted.
    - rewrite Z2Nat.id by lia. destruct sa, sb; unfold cond_Zopp; lia. }
  destruct a as [|ca|ca], b as [|cb|cb]; try reflexivity.
  - apply (Hcore false ca false cb); try (apply safe_digits; auto); exact Hab.
  - apply (Hcore false ca true cb); try (apply safe_digits; auto); exact Hab.
  - apply (Hcore true ca false cb); try (apply safe_digits; auto); exact Hab.
  - apply (Hcore true ca true cb); try (apply safe_digits; auto); exact Hab.
Qed.

Lemma SFsub_canon (a b : Z) :
  safeInteger a -> safeInteger b -> safeInteger (a - b) ->
  SFsub prec emax (canonOf a) (canonOf b) = canonOf (a - b).
Proof.
  intros Ha Hb Hab.
  assert (Hopp : safeInteger (- b)) by (unfold safeInteger in *; lia).
  replace (a - b) with (a + - b) in * by lia.
  rewrite <- (SFadd_canon a (- b) Ha Hopp Hab).
  destruct a as [|ca|ca], b as [|cb|cb]; try reflexivity.
Qed.

(** Binary64 addition and subtraction are exact on safe integers. *)
Lemma add_safe (a b : Z) :
  safeInteger a -> safeInteger b -> safeInteger (a + b) ->
  PrimFloat.add (Number_ofZ a) (Number_ofZ b) = Number_ofZ (a + b).
Proof.
  intros Ha Hb Hab. apply Prim2SF_inj.
  rewrite FloatAxioms.add_spec, !Prim2SF_ofZ by assumption.
  now apply SFadd_canon.
Qed.

Lemma sub_safe (a b : Z) :
  safeInteger a -> safeInteger b -> safeInteger (a - b) ->
  PrimFloat.sub (Number_ofZ a) (Number_ofZ b) = Number_ofZ (a - b).
Proof.
  intros Ha Hb Hab. apply Prim2SF_inj.
  rewrite FloatAxioms.sub_spec, !Prim2SF_ofZ by assumption.
  now apply SFsub_canon.
Qed.

Lemma one_is_Number : 1%float = Number_ofZ 1.
Proof.
  vm_compute. reflexivity.
Qed.

Lemma zero_is_Number : 0%float = Number_ofZ 0.
Proof.
  vm_compute. reflexivity.
Qed.

(** ** The counter *)

Lemma sumFromZero_cons (x : Z) (l : list Z) :
  sumFromZero (x :: l) = x + sumFromZero l.
Proof.
  unfold sumFromZero. simpl.
  assert (shift : forall (l : list Z) (a : Z),
             fold_left Z.add l a = a + fold_left Z.add l 0).
  { clear. induction l as [|y l IH]; intros a; simpl.
    - lia.
    - rewrite (IH (a + y)), (IH y). lia. }
  apply shift.
Qed.

Lemma afterLastReset_without_reset (actions : list Action) :
  existsb isReset actions = false -> afterLastReset actions = actions.
Proof.
  destruct actions as [|a rest]; simpl; [reflexivity|].
  intros H. apply orb_false_iff in H as [Ha Hrest].
  now rewrite Hrest, Ha.
Qed.

(** One step of the counter on a safe value: a well-typed action yields a
    state whose value is 0 after [reset] and the previous value plus the
    action's effect otherwise, as long as that is a safe integer too. *)
Lemma counterReducer_step
      (init s : CounterState) (a : Action) (w : World) (v : Z) :
  counterTyped a = true ->
  value s = Number_ofZ v ->
  safeInteger v ->
  safeInteger (contribution a) ->
  safeInteger (if isReset a then 0 else v + contribution a) ->
  exists s' w',
    run (counterReducer init (Some s) a) w = Some (s', w') /\
    value s' = Number_ofZ (if isReset a then 0 else v + contribution a).
Proof.
  unfold counterTyped, counterReducer, contribution, isReset.
  intros Hty Hv Hsafe Hc Hnext.
  destruct (String.eqb_spec (type a) INCREMENT) as [e|_].
  { rewrite e in *. simpl in *. eexists _, _. split; [reflexivity|]. simpl.
    rewrite Hv, one_is_Number. apply add_safe; auto; unfold safeInteger; lia. }
  destruct (String.eqb_spec (type a) DECREMENT) as [e|_].
  { rewrite e in *. simpl in *. eexists _, _. split; [reflexivity|]. simpl.
    rewrite Hv, one_is_Number.
    replace (v + -1) with (v - 1) in * by lia.
    apply sub_safe; auto; unfold safeInteger; lia. }
  destruct (String.eqb_spec (type a) INCREMENT_BY_AMOUNT) as [e|_].
  { rewrite e in *. simpl in *. destruct (payload a); try discriminate.
    eexists _, _. split; [reflexivity|]. simpl.
    rewrite Hv. apply add_safe; auto. }
  destruct (String.eqb_spec (type a) RESET) as [e|_].
  { eexists _, _. split; [reflexivity|]. simpl. apply zero_is_Number. }
  eexists _, _. split; [reflexivity|]. simpl. rewrite Hv. f_equal. lia.
Qed.

Lemma dispatchAll_value (init : CounterState) (actions : list Action) :
  Forall (fun a => counterTyped a = true) actions ->
  forall (s0 : CounterState) (v0 : Z) (w : World),
  value s0 = Number_ofZ v0 ->
  safeInteger v0 ->
  staysSafe v0 actions ->
  exists s w',
    Counter.dispatchAll init s0 actions w = Some (s, w') /\
    value s = Number_ofZ
                ((if existsb isReset actions then 0 else v0)
                 + sumFromZero (map contribution (afterLastReset actions))).
Proof.
  induction 1 as [|a rest Ha _ IH]; intros s0 v0 w Hv0 Hsafe0 Hsafe.
  - exists s0, w. split; [reflexivity|]. simpl. unfold sumFromZero. simpl.
    rewrite Hv0. f_equal. lia.
  - destruct Hsafe as (Hc & Hnext & Hrest).
    destruct (counterReducer_step init s0 a w v0 Ha Hv0 Hsafe0 Hc Hnext)
      as (s1 & w1 & Hrun & Hval).
    destruct (IH s1 _ w1 Hval Hnext Hrest) as (s & w' & Hrun' & Hsum).
    exists s, w'. split.
    + simpl. rewrite Hrun. exact Hrun'.
    + rewrite Hsum. f_equal. simpl.
      destruct (existsb isReset rest) eqn:Hex.
      * rewrite orb_true_r. reflexivity.
      * rewrite orb_false_r.
        rewrite (afterLastReset_without_reset rest Hex).
        destruct (isReset a); [reflexivity|].
        simpl. rewrite sumFromZero_cons. lia.
Qed.

(** C2. Starting from the initial state, a sequence of counter operations
    whose payloads and running values are all safe integers (below 2^53 in
    absolute value) ends in a state whose value is the sum, taken in order
    from 0, of the effects (+1, -1, +N, nothing for an unrecognized tag) of
    the operations that follow the last reset: of all of them when none is a
    reset.  And reset yields the value 0 from any state. *)
Theorem counter_value_is_sum_of_effects :
  forall (loadedIn : World),
    let initialState := fst (Counter.loadInitialState loadedIn) in
    (forall (actions : list Action) (w : World),
        Forall (fun a => counterTyped a = true) actions ->
        staysSafe 0 actions ->
        exists s w',
          Counter.dispatchAll initialState initialState actions w = Some (s, w') /\
          value s
          = Number_ofZ (sumFromZero (map contribution (afterLastReset actions))) /\
          (existsb isReset actions = false ->
           value s = Number_ofZ (sumFromZero (map contribution actions)))) /\
    (forall (s : CounterState) (w : World),
        exists s' w',
          run (counterReducer initialState (Some s) reset) w = Some (s', w') /\
          value s' = 0%float).
Proof.
  intros loadedIn initialState. split.
  - intros actions w Hty Hsafe.
    assert (Hzero : safeInteger 0) by (unfold safeInteger; lia).
    destruct (dispatchAll_value initialState actions Hty initialState 0 w
                zero_is_Number Hzero Hsafe)
      as (s & w' & Hrun & Hval).
    exists s, w'. split; [exact Hrun|].
    split.
    + rewrite Hval. f_equal. destruct (existsb isReset actions); lia.
    + intros Hnone. rewrite Hval, Hnone.
      rewrite (afterLastReset_without_reset actions Hnone). f_equal.
  - intros s w. eexists _, _. split; reflexivity.
Qed.

(** A run of six operations, one of them foreign and one a reset. *)
Lemma counter_value_witness :
  exists s w',
    Counter.dispatchAll Sample.counter0 Sample.counter0
      [increment; incrementByAmount 5; Sample.initAction; reset; decrement;
       incrementByAmount 3] Sample.afterLoad = Some (s, w') /\
    value s = 2%float.
Proof.
  destruct (proj1 (counter_value_is_sum_of_effects Sample.stuckWorld)
              [increment; incrementByAmount 5; Sample.initAction; reset;
               decrement; incrementByAmount 3] Sample.afterLoad)
    as (s & w' & Hrun & Hval & _).
  - repeat constructor.
  - vm_compute. repeat split.
  - exists s, w'. split; [exact Hrun|]. rewrite Hval. vm_compute. reflexivity.
Defined.

(** Beyond the safe integers the sum is lost: from 0, incrementByAmount 2^53
    and two increments leave the value at 2^53, the sum of the three effects
    being 2^53 + 2. *)
Lemma counter_value_saturates :
  exists s w',
    Counter.dispatchAll Sample.counter0 Sample.counter0
      [incrementByAmount (2 ^ 53); increment; increment] Sample.afterLoad
    = Some (s, w') /\
    value s = Number_ofZ (2 ^ 53) /\
    sumFromZero (map contribution [incrementByAmount (2 ^ 53); increment; increment])
    = 2 ^ 53 + 2 /\
    value s
    <> Number_ofZ
         (sumFromZero
            (map contribution [incrementByAmount (2 ^ 53); increment; increment])).
Proof.
  remember (Counter.dispatchAll Sample.counter0 Sample.counter0
              [incrementByAmount (2 ^ 53); increment; increment] Sample.afterLoad)
    as outcome eqn:Hrun.
  assert (Hvalue : option_map (fun r => value (fst r)) outcome
                   = Some (Number_ofZ (2 ^ 53))).
  { rewrite Hrun. vm_compute. reflexivity. }
  destruct outcome as [[s w']|]; [|discriminate Hvalue].
  simpl in Hvalue. injection Hvalue as Hvalue.
  exists s, w'. split; [reflexivity|]. split; [exact Hvalue|].
  split; [vm_compute; reflexivity|].
  rewrite Hvalue. intros Hsame.
  apply (f_equal (fun x => PrimFloat.eqb x (Number_ofZ (2 ^ 53)))) in Hsame.
  vm_compute in Hsame. discriminate Hsame.
Qed.

(** ** [map] with a callback that may allocate *)

Section MapM.

Context {A B : Type}.

(** Whatever relates each element to what the callback makes of it relates
    the two lists position by position. *)
Lemma mapM_Forall2 (R : A -> B -> Prop) (f : A -> M B) :
  (forall x w, R x (fst (f x w))) ->
  forall l w, Forall2 R l (fst (mapM f l w)).
Proof.
  intros Hf. induction l as [|x l IH]; intros w; simpl.
  - constructor.
  - unfold bind. specialize (Hf x w). destruct (f x w) as [y w1].
    specialize (IH w1). destruct (mapM f l w1) as [ys w2]. simpl in *.
    now constructor.
Qed.

Lemma Array_map_Forall2 (R : A -> B -> Prop) (f : A -> M B) :
  (forall x w, R x (fst (f x w))) ->
  forall arr w, Forall2 R (items arr) (items (fst (Array_map f arr w))).
Proof.
  intros Hf arr w. unfold Array_map, bind. simpl.
  pose proof (mapM_Forall2 R f Hf (items arr)
                (mkWorld (clock w) (clockReads w) (random36 w) (randomReads w)
                   (S (nextRef w)))) as H.
  destruct (mapM f (items arr) _) as [ys w']. exact H.
Qed.

End MapM.

(** A callback that hands back each element of the list, allocating nothing,
    leaves the list as it is. *)
Lemma mapM_same {A : Type} (f : A -> M A) (l : list A) :
  (forall x, In x l -> forall w, f x w = (x, w)) ->
  forall w, mapM f l w = (l, w).
Proof.
  induction l as [|x l IH]; intros Hf w; simpl.
  - reflexivity.
  - unfold bind. rewrite (Hf x (or_introl eq_refl)).
    rewrite IH by (intros y Hy; apply Hf; now right). reflexivity.
Qed.

(** ** markAllComplete *)

(** One application: every task is copied with [completed] set to the
    negation of "all are completed"; nothing else changes. *)
Lemma markAllComplete_step (init s : TodoState) (w : World) :
  exists s' w',
    run (todoReducer init (Some s) markAllComplete) w = Some (s', w') /\
    Forall2 (fun old new =>
               id new = id old /\ text new = text old /\
               createdAt new = createdAt old /\
               completed new = negb (forallb completed (items (todos s))))
            (items (todos s)) (items (todos s')) /\
    filter s' = filter s /\ searchTerm s' = searchTerm s.
Proof.
  unfold todoReducer, markAllComplete. simpl. unfold bind at 1. simpl.
  set (w1 := mkWorld _ _ _ _ _).
  set (f := fun todo : Todo => _).
  pose proof (Array_map_Forall2
                (fun old new =>
                   id new = id old /\ text new = text old /\
                   createdAt new = createdAt old /\
                   completed new = negb (forallb completed (items (todos s))))
                f) as H.
  specialize (H (fun x w0 => ltac:(repeat split)) (todos s) w1).
  unfold bind. destruct (Array_map f (todos s) w1) as [ts w2]. simpl in H.
  eexists _, _. split; [reflexivity|]. simpl. auto.
Qed.

Lemma all_completed_after (l l' : list Todo) (b : bool) :
  Forall2 (fun old new =>
             id new = id old /\ text new = text old /\
             createdAt new = createdAt old /\ completed new = b) l l' ->
  Forall (fun t => completed t = b) l'.
Proof.
  induction 1; constructor; tauto.
Qed.

(** C1. markAllComplete computes whether every task is completed and gives
    every task the negation of that as its [completed] flag, leaving ids,
    texts, timestamps, filter and search term alone.  So, applied when not
    all tasks are completed, it makes all of them completed, and applied
    once more it makes all of them not completed. *)
Theorem markAllComplete_toggles_all :
  forall (init s : TodoState) (w : World),
    exists s1 w1 s2 w2,
      run (todoReducer init (Some s) markAllComplete) w = Some (s1, w1) /\
      run (todoReducer init (Some s1) markAllComplete) w1 = Some (s2, w2) /\
      Forall2 (fun old new =>
                 id new = id old /\ text new = text old /\
                 createdAt new = createdAt old /\
                 completed new = negb (forallb completed (items (todos s))))
              (items (todos s)) (items (todos s1)) /\
      filter s1 = filter s /\ searchTerm s1 = searchTerm s /\
      (forallb completed (items (todos s)) = false ->
       Forall (fun t => completed t = true) (items (todos s1)) /\
       Forall (fun t => completed t = false) (items (todos s2)) /\
       List.length (items (todos s2)) = List.length (items (todos s)) /\
       items (todos s) <> []).
Proof.
  intros init s w.
  destruct (markAllComplete_step init s w) as (s1 & w1 & Hrun1 & Hall1 & Hf1 & Hq1).
  destruct (markAllComplete_step init s1 w1) as (s2 & w2 & Hrun2 & Hall2 & _ & _).
  exists s1, w1, s2, w2.
  split; [exact Hrun1|]. split; [exact Hrun2|]. split; [exact Hall1|].
  split; [exact Hf1|]. split; [exact Hq1|].
  intros Hnot. rewrite Hnot in Hall1.
  pose proof (all_completed_after _ _ _ Hall1) as Hdone.
  assert (Hnow : forallb completed (items (todos s1)) = true).
  { apply forallb_forall. apply Forall_forall. exact Hdone. }
  rewrite Hnow in Hall2.
  split; [exact Hdone|]. split; [exact (all_completed_after _ _ _ Hall2)|].
  split.
  - rewrite <- (Forall2_length Hall2). symmetry. exact (Forall2_length Hall1).
  - intros Hempty. rewrite Hempty in Hnot. discriminate.
Qed.

(** On the sample todos: one of three is completed at the start. *)
Lemma markAllComplete_witness :
  exists s1 w1 s2 w2,
    run (todoReducer Sample.todos0 (Some Sample.todos0) markAllComplete)
        Sample.afterLoad = Some (s1, w1) /\
    run (todoReducer Sample.todos0 (Some s1) markAllComplete) w1 = Some (s2, w2) /\
    Forall (fun t => completed t = true) (items (todos s1)) /\
    Forall (fun t => completed t = false) (items (todos s2)).
Proof.
  destruct (markAllComplete_toggles_all Sample.todos0 Sample.todos0 Sample.afterLoad)
    as (s1 & w1 & s2 & w2 & Hrun1 & Hrun2 & _ & _ & _ & Hnot).
  exists s1, w1, s2, w2.
  split; [exact Hrun1|]. split; [exact Hrun2|].
  destruct Hnot as (Hdone & Hundone & _).
  - reflexivity.
  - split; assumption.
Defined.

(** ** toggleTodo, deleteTodo, editTodo *)

Lemma Forall2_chain {A : Type} (R1 R2 R : A -> A -> Prop) :
  (forall x y z, R1 x y -> R2 y z -> R x z) ->
  forall l1 l2 l3, Forall2 R1 l1 l2 -> Forall2 R2 l2 l3 -> Forall2 R l1 l3.
Proof.
  intros Hstep l1 l2 l3 H12. revert l3.
  induction H12 as [|x y l1 l2 Hxy _ IH]; intros l3 H23; inversion H23; subst.
  - constructor.
  - constructor; eauto.
Qed.

Lemma Forall2_same_fields (l l' : list Todo) :
  Forall2 (fun old new => todoFields new = todoFields old) l l' ->
  map todoFields l' = map todoFields l.
Proof.
  induction 1; simpl; congruence.
Qed.

(** One application of toggleTodo: the tasks whose id is the payload are
    copied with [completed] inverted, the others pass through. *)
Lemma toggleTodo_step (init s : TodoState) (target : string) (w : World) :
  exists s' w',
    run (todoReducer init (Some s) (toggleTodo target)) w = Some (s', w') /\
    Forall2 (fun old new =>
               id new = id old /\ text new = text old /\
               createdAt new = createdAt old /\
               completed new = (if (id old =? target)%string
                                then negb (completed old) else completed old))
            (items (todos s)) (items (todos s')) /\
    filter s' = filter s /\ searchTerm s' = searchTerm s.
Proof.
  unfold todoReducer, toggleTodo. simpl. unfold bind at 1. simpl.
  set (w1 := mkWorld _ _ _ _ _).
  set (f := fun todo : Todo => _).
  pose proof (Array_map_Forall2
                (fun old new =>
                   id new = id old /\ text new = text old /\
                   createdAt new = createdAt old /\
                   completed new = (if (id old =? target)%string
                                    then negb (completed old) else completed old))
                f) as H.
  assert (Hf : forall x w0,
             id (fst (f x w0)) = id x /\ text (fst (f x w0)) = text x /\
             createdAt (fst (f x w0)) = createdAt x /\
             completed (fst (f x w0)) =
               (if (id x =? target)%string then negb (completed x) else completed x)).
  { intros x w0. unfold f. destruct (id x =? target)%string; repeat split. }
  specialize (H Hf (todos s) w1).
  unfold bind. destruct (Array_map f (todos s) w1) as [ts w2]. simpl in H.
  eexists _, _. split; [reflexivity|]. simpl. auto.
Qed.

(** C6. toggleTodo(id) applied twice gives every task its original
    [completed] value back (indeed all its original fields), and neither
    application changes a task's id or text. *)
Theorem toggleTodo_twice_restores :
  forall (init s : TodoState) (target : string) (w : World),
    exists s1 w1 s2 w2,
      run (todoReducer init (Some s) (toggleTodo target)) w = Some (s1, w1) /\
      run (todoReducer init (Some s1) (toggleTodo target)) w1 = Some (s2, w2) /\
      Forall2 (fun old new => id new = id old /\ text new = text old)
              (items (todos s)) (items (todos s1)) /\
      Forall2 (fun old new => id new = id old /\ text new = text old)
              (items (todos s1)) (items (todos s2)) /\
      Forall2 (fun old new => completed new = completed old)
              (items (todos s)) (items (todos s2)) /\
      todoContents s2 = todoContents s.
Proof.
  intros init s target w.
  destruct (toggleTodo_step init s target w) as (s1 & w1 & Hrun1 & H1 & Hf1 & Hq1).
  destruct (toggleTodo_step init s1 target w1) as (s2 & w2 & Hrun2 & H2 & Hf2 & Hq2).
  exists s1, w1, s2, w2.
  split; [exact Hrun1|]. split; [exact Hrun2|].
  split; [eapply Forall2_impl; [|exact H1]; simpl; tauto|].
  split; [eapply Forall2_impl; [|exact H2]; simpl; tauto|].
  assert (Hback : Forall2 (fun old new => todoFields new = todoFields old)
                    (items (todos s)) (items (todos s2))).
  { eapply Forall2_chain; [|exact H1|exact H2].
    intros x y z (Hi & Ht & Hc & Hd) (Hi' & Ht' & Hc' & Hd').
    unfold todoFields. rewrite Hi', Ht', Hc', Hd', Hi, Ht, Hc, Hd.
    destruct (id x =? target)%string; [rewrite negb_involutive|]; reflexivity. }
  split.
  - eapply Forall2_impl; [|exact Hback]. simpl. unfold todoFields. congruence.
  - unfold todoContents. rewrite (Forall2_same_fields _ _ Hback).
    congruence.
Qed.

Lemma filter_all {A : Type} (p : A -> bool) (l : list A) :
  (forall x, In x l -> p x = true) -> List.filter p l = l.
Proof.
  induction l as [|x l IH]; intros Hp; simpl.
  - reflexivity.
  - rewrite (Hp x (or_introl eq_refl)). f_equal. apply IH.
    intros y Hy. apply Hp. now right.
Qed.

(** C7. When no task has the given id, toggleTodo, deleteTodo and editTodo
    each return a list holding the same task objects at the same positions. *)
Theorem unknown_id_leaves_list_identical :
  forall (init s : TodoState) (target newText : string) (w : World),
    (forall t, In t (items (todos s)) -> id t <> target) ->
    (exists s' w',
        run (todoReducer init (Some s) (toggleTodo target)) w = Some (s', w') /\
        items (todos s') = items (todos s)) /\
    (exists s' w',
        run (todoReducer init (Some s) (deleteTodo target)) w = Some (s', w') /\
        items (todos s') = items (todos s)) /\
    (exists s' w',
        run (todoReducer init (Some s) (editTodo target newText)) w = Some (s', w') /\
        items (todos s') = items (todos s)).
Proof.
  intros init s target newText w Hnone.
  assert (Hneq : forall t, In t (items (todos s)) -> (id t =? target)%string = false).
  { intros t Ht. apply String.eqb_neq. exact (Hnone t Ht). }
  split; [|split].
  - unfold todoReducer, toggleTodo. simpl.
    unfold bind at 1. simpl. unfold bind at 1. unfold Array_map, bind at 1. simpl.
    unfold bind at 1. rewrite mapM_same.
    + eexists _, _. split; reflexivity.
    + intros x Hx w0. now rewrite (Hneq x Hx).
  - unfold todoReducer, deleteTodo. simpl.
    eexists _, _. split; [reflexivity|]. simpl.
    apply filter_all. intros x Hx. now rewrite (Hneq x Hx).
  - unfold todoReducer, editTodo. simpl.
    unfold bind at 1. simpl. unfold bind at 1. unfold Array_map, bind at 1. simpl.
    unfold bind at 1. rewrite mapM_same.
    + eexists _, _. split; reflexivity.
    + intros x Hx w0. now rewrite (Hneq x Hx).
Qed.

(** The sample todos have ids 1, 2 and 3. *)
Lemma unknown_id_witness :
  (exists s' w',
      run (todoReducer Sample.todos0 (Some Sample.todos0) (toggleTodo "4"))
          Sample.afterLoad = Some (s', w') /\
      items (todos s') = items (todos Sample.todos0)) /\
  (exists s' w',
      run (todoReducer Sample.todos0 (Some Sample.todos0) (deleteTodo "4"))
          Sample.afterLoad = Some (s', w') /\
      items (todos s') = items (todos Sample.todos0)) /\
  (exists s' w',
      run (todoReducer Sample.todos0 (Some Sample.todos0) (editTodo "4" "x"))
          Sample.afterLoad = Some (s', w') /\
      items (todos s') = items (todos Sample.todos0)).
Proof.
  apply (unknown_id_leaves_list_identical
           Sample.todos0 Sample.todos0 "4" "x" Sample.afterLoad).
  simpl. intros t [<-|[<-|[<-|[]]]]; simpl; discriminate.
Defined.

(** ** addTodo *)

(** C9. addTodo(text) returns a list one longer than the input, whose first
    element is a task allocated by this call, with the given text,
    [completed] false and [createdAt] read from the clock during the call
    (its second reading, the first one going into the id), and whose other
    elements are the input's task objects in their order. *)
Theorem addTodo_prepends_new_task :
  forall (init s : TodoState) (newText : string) (w : World),
    exists s' w' t,
      run (todoReducer init (Some s) (addTodo newText)) w = Some (s', w') /\
      items (todos s') = t :: items (todos s) /\
      List.length (items (todos s')) = S (List.length (items (todos s))) /\
      nth_error (items (todos s')) 0 = Some t /\
      text t = newText /\
      completed t = false /\
      createdAt t = clock w (S (clockReads w)) /\
      id t = (Number_toString (clock w (clockReads w))
                ++ substr 2 9 (random36 w (randomReads w)))%string /\
      (nextRef w <= todoRef t < nextRef w')%nat /\
      filter s' = filter s /\ searchTerm s' = searchTerm s.
Proof.
  intros init s newText w.
  unfold todoReducer, addTodo. simpl.
  eexists _, _, _. split; [reflexivity|]. simpl.
  repeat (split; [reflexivity|]).
  split; [simpl; lia|]. split; reflexivity.
Qed.

(** ** Determinism *)







(** ** Uniqueness of ids *)

Lemma NoDup_map_filter {A B : Type} (g : A -> B) (p : A -> bool) (l : list A) :
  NoDup (map g l) -> NoDup (map g (List.filter p l)).
Proof.
  induction l as [|x l IH]; simpl; intros Hl.
  - constructor.
  - inversion Hl as [|? ? Hx Hrest]; subst.
    destruct (p x); simpl; [constructor|]; auto.
    intros Hin. apply Hx.
    apply in_map_iff in Hin as (y & Hy & Hin).
    apply filter_In in Hin as [Hin _].
    rewrite <- Hy. now apply in_map.
Qed.

Lemma same_ids (R : Todo -> Todo -> Prop) (l l' : list Todo) :
  (forall old new, R old new -> id new = id old) ->
  Forall2 R l l' -> map id l' = map id l.
Proof.
  intros HR. induction 1 as [|x y l l' Hxy _ IH]; simpl.
  - reflexivity.
  - now rewrite (HR _ _ Hxy), IH.
Qed.

Lemma Array_map_keeps_ids (f : Todo -> M Todo) (arr : JsArray Todo) (w : World) :
  (forall x u, id (fst (f x u)) = id x) ->
  map id (items (fst (Array_map f arr w))) = map id (items arr).
Proof.
  intros Hf.
  apply (same_ids (fun old new => id new = id old)); [auto|].
  now apply Array_map_Forall2.
Qed.

(** Every operation other than addTodo keeps the ids pairwise distinct, and
    addTodo does when the id it generates is not in the list already.  The
    reducer itself never compares the generated id with the existing ones. *)
Lemma todoReducer_keeps_unique_ids
      (init s : TodoState) (a : Action) (w : World) (s' : TodoState) (w' : World) :
  uniqueIds s ->
  run (todoReducer init (Some s) a) w = Some (s', w') ->
  (type a = ADD_TODO ->
   ~ In (fst (generateId w)) (map id (items (todos s)))) ->
  uniqueIds s'.
Proof.
  unfold uniqueIds, todoReducer. intros Hs Hrun Hfresh.
  destruct (String.eqb_spec (type a) ADD_TODO) as [e|_].
  { specialize (Hfresh e).
    destruct (payload a) as [|amount|target|target newText]; try discriminate. simpl in Hrun.
    injection Hrun as <- _. simpl. constructor; assumption. }
  clear Hfresh.
  destruct (type a =? TOGGLE_TODO)%string.
  { destruct (payload a) as [|amount|target|target newText]; try discriminate. simpl in Hrun.
    unfold bind at 1 in Hrun. simpl in Hrun. unfold bind in Hrun.
    match type of Hrun with
    | context [Array_map ?f ?arr ?u] =>
        pose proof (Array_map_keeps_ids f arr u) as Hids;
        destruct (Array_map f arr u) as [ts u']
    end.
    injection Hrun as <- _. simpl in *. rewrite Hids; [assumption|].
    intros x u. destruct (id x =? target)%string; reflexivity. }
  destruct (type a =? DELETE_TODO)%string.
  { destruct (payload a) as [|amount|target|target newText]; try discriminate. simpl in Hrun.
    injection Hrun as <- _. simpl. now apply NoDup_map_filter. }
  destruct (type a =? EDIT_TODO)%string.
  { destruct (payload a) as [|amount|target|target newText]; try discriminate. simpl in Hrun.
    unfold bind at 1 in Hrun. simpl in Hrun. unfold bind in Hrun.
    match type of Hrun with
    | context [Array_map ?f ?arr ?u] =>
        pose proof (Array_map_keeps_ids f arr u) as Hids;
        destruct (Array_map f arr u) as [ts u']
    end.
    injection Hrun as <- _. simpl in *. rewrite Hids; [assumption|].
    intros x u. destruct (id x =? target)%string; reflexivity. }
  destruct (type a =? CLEAR_COMPLETED)%string.
  { simpl in Hrun. injection Hrun as <- _. simpl. now apply NoDup_map_filter. }
  destruct (type a =? SET_FILTER)%string.
  { destruct (payload a) as [|amount|target|target newText]; try discriminate. simpl in Hrun.
    injection Hrun as <- _. simpl. assumption. }
  destruct (type a =? SET_SEARCH_TERM)%string.
  { destruct (payload a) as [|amount|target|target newText]; try discriminate. simpl in Hrun.
    injection Hrun as <- _. simpl. assumption. }
  destruct (type a =? MARK_ALL_COMPLETE)%string.
  { simpl in Hrun. unfold bind at 1 in Hrun. simpl in Hrun. unfold bind in Hrun.
    match type of Hrun with
    | context [Array_map ?f ?arr ?u] =>
        pose proof (Array_map_keeps_ids f arr u) as Hids;
        destruct (Array_map f arr u) as [ts u']
    end.
    injection Hrun as <- _. simpl in *. rewrite Hids; [assumption|].
    reflexivity. }
  simpl in Hrun. injection Hrun as <- _. assumption.
Qed.

(** The initial state has pairwise distinct ids. *)
Lemma initial_ids_unique (w : World) : uniqueIds (fst (Todo.loadInitialState w)).
Proof.
  unfold uniqueIds. simpl.
  repeat constructor; simpl; intuition discriminate.
Qed.

(** C3. Two addTodo dispatched from the initial state within one
    millisecond of the clock, [Math.random()] giving the same digits both
    times, leave two tasks with the same id in the list. *)
Theorem addTodo_can_repeat_an_id :
  exists s w,
    Todo.dispatchAll Sample.todos0 Sample.todos0
      [addTodo "Buy milk"; addTodo "Buy bread"] Sample.afterLoad = Some (s, w) /\
    map id (items (todos s))
    = ["17000000000004fzyo82mv"; "17000000000004fzyo82mv"; "1"; "2"; "3"]%string /\
    ~ uniqueIds s.
Proof.
  remember (Todo.dispatchAll Sample.todos0 Sample.todos0
              [addTodo "Buy milk"; addTodo "Buy bread"] Sample.afterLoad)
    as outcome eqn:Hrun.
  assert (Hids : option_map (fun r => map id (items (todos (fst r)))) outcome
                 = Some ["17000000000004fzyo82mv"; "17000000000004fzyo82mv";
                         "1"; "2"; "3"]%string).
  { rewrite Hrun. vm_compute. reflexivity. }
  destruct outcome as [[s w]|]; [|discriminate Hids].
  simpl in Hids. injection Hids as Hids.
  exists s, w. split; [reflexivity|]. split; [exact Hids|].
  unfold uniqueIds. rewrite Hids. intros Hdup.
  inversion Hdup as [|? ? Hfirst _]. apply Hfirst. now left.
Qed.

(** ** Strings: substrings and case *)

Section Strings.

Local Open Scope string_scope.

Lemma append_assoc (a b c : string) : (a ++ b) ++ c = a ++ (b ++ c).
Proof.
  induction a as [|x a IH]; simpl; [reflexivity|]. now rewrite IH.
Qed.

Lemma prefix_spec (p s : string) :
  String.prefix p s = true <-> exists rest, s = p ++ rest.
Proof.
  revert s. induction p as [|c p IH]; intros s.
  - split; [intros _; exists s; reflexivity|].
    intros _. destruct s; reflexivity.
  - destruct s as [|d s]; simpl.
    + split; [discriminate|]. intros [rest H]. discriminate.
    + destruct (ascii_dec c d) as [->|Hne].
      * rewrite IH. split; intros [rest H]; exists rest; congruence.
      * split; [discriminate|]. intros [rest H]. congruence.
Qed.

(** [includes] finds exactly the substrings. *)
Lemma includes_spec (s p : string) :
  includes s p = true <-> exists before after, s = before ++ p ++ after.
Proof.
  induction s as [|c s IH].
  - change (includes "" p) with (String.prefix p "" || false)%bool.
    rewrite orb_false_r, prefix_spec. split.
    + intros [rest H]. exists "", rest. exact H.
    + intros (before & after & H). destruct before; [|discriminate].
      exists after. exact H.
  - change (includes (String c s) p)
      with (String.prefix p (String c s) || includes s p)%bool.
    rewrite orb_true_iff, IH, prefix_spec. split.
    + intros [[rest H]|(before & after & H)].
      * exists "", rest. exact H.
      * exists (String c before), after. simpl. now rewrite H.
    + intros (before & after & H). destruct before as [|d before].
      * left. exists after. exact H.
      * right. exists before, after. simpl in H. congruence.
Qed.

Lemma toLowerCaseAscii_app (a b : string) :
  toLowerCaseAscii (a ++ b) = toLowerCaseAscii a ++ toLowerCaseAscii b.
Proof.
  induction a as [|c a IH]; simpl; [reflexivity|]. now rewrite IH.
Qed.

(** On ASCII, lowering goes character by character: a split of the lowered
    string is the lowering of a split of the string. *)
Lemma toLowerCaseAscii_split (s a b : string) :
  toLowerCaseAscii s = a ++ b ->
  exists s1 s2,
    s = s1 ++ s2 /\ toLowerCaseAscii s1 = a /\ toLowerCaseAscii s2 = b.
Proof.
  revert s. induction a as [|c a IH]; intros s H.
  - exists "", s. auto.
  - destruct s as [|d s]; [discriminate|]. simpl in H.
    injection H as Hc Hrest.
    destruct (IH s Hrest) as (s1 & s2 & -> & H1 & H2).
    exists (String d s1), s2. simpl. now rewrite Hc, H1.
Qed.

(** Every character is one of the 256 bytes. *)
Lemma every_ascii (c : ascii) : In c (map ascii_of_nat (seq 0 256)).
Proof.
  rewrite <- (ascii_nat_embedding c). apply in_map, in_seq.
  pose proof (nat_ascii_bounded c). lia.
Qed.

(** Two characters have the same lower case exactly when they are the same
    letter up to case: checked on the 256 * 256 pairs. *)
Lemma sameLetter_spec (c d : ascii) :
  sameLetter c d = true <-> lowerChar c = lowerChar d.
Proof.
  assert (Hall : forallb
                   (fun x =>
                      forallb
                        (fun y =>
                           Bool.eqb (sameLetter x y)
                             (Ascii.eqb (lowerChar x) (lowerChar y)))
                        (map ascii_of_nat (seq 0 256)))
                   (map ascii_of_nat (seq 0 256)) = true).
  { vm_compute. reflexivity. }
  rewrite forallb_forall in Hall. specialize (Hall c (every_ascii c)).
  rewrite forallb_forall in Hall. specialize (Hall d (every_ascii d)).
  apply Bool.eqb_prop in Hall. rewrite Hall. apply Ascii.eqb_eq.
Qed.

Lemma sameUpToCase_spec (a b : string) :
  sameUpToCase a b = true <-> toLowerCaseAscii a = toLowerCaseAscii b.
Proof.
  revert b. induction a as [|c a IH]; intros [|d b]; simpl;
    try (split; [reflexivity|reflexivity]); try (split; discriminate).
  rewrite andb_true_iff, sameLetter_spec, IH. split.
  - intros [-> ->]. reflexivity.
  - intros [= -> ->]. auto.
Qed.

(** With the ASCII lowering, the test the selector runs is the
    case-insensitive substring match. *)
Lemma ascii_search_spec (term txt : string) :
  includes (toLowerCaseAscii txt) (toLowerCaseAscii term) = true
  <-> matchesIgnoringCase term txt.
Proof.
  rewrite includes_spec. unfold matchesIgnoringCase. split.
  - intros (before & after & H).
    apply toLowerCaseAscii_split in H as (s1 & rest & -> & H1 & H).
    apply toLowerCaseAscii_split in H as (s2 & s3 & -> & H2 & H3).
    exists s1, s2, s3. split; [reflexivity|]. now apply sameUpToCase_spec.
  - intros (before & found & after & -> & H). apply sameUpToCase_spec in H.
    exists (toLowerCaseAscii before), (toLowerCaseAscii after).
    now rewrite !toLowerCaseAscii_app, H.
Qed.

Lemma truthy_spec (s : string) : truthy s = false <-> s = "".
Proof.
  destruct s; simpl; split; congruence.
Qed.

End Strings.

(** ** Filtering *)

Section Kept.

Context {A : Type}.

Lemma filter_Kept (P : A -> Prop) (p : A -> bool) (l : list A) :
  (forall x, p x = true <-> P x) -> Kept P l (List.filter p l).
Proof.
  intros Hp. induction l as [|x l IH]; simpl.
  - constructor.
  - destruct (p x) eqn:E.
    + constructor; [now apply Hp|exact IH].
    + apply Kept_drop; [|exact IH]. intros HP. apply Hp in HP. congruence.
Qed.

Lemma Kept_all (P : A -> Prop) (l : list A) :
  (forall x, P x) -> Kept P l l.
Proof.
  intros HP. induction l; constructor; auto.
Qed.

(** [Kept P all] determines the list it relates [all] to. *)
Lemma Kept_functional (P : A -> Prop) (all k1 k2 : list A) :
  Kept P all k1 -> Kept P all k2 -> k1 = k2.
Proof.
  intros H1. revert k2.
  induction H1 as [|x all k1 Hx _ IH|x all k1 Hx _ IH]; intros k2 H2;
    inversion H2; subst; try contradiction; auto.
  f_equal. auto.
Qed.

Lemma Kept_In (P : A -> Prop) (all kept : list A) :
  Kept P all kept -> forall x, In x kept <-> In x all /\ P x.
Proof.
  induction 1 as [|y all kept Hy _ IH|y all kept Hy _ IH]; intros x; simpl.
  - tauto.
  - rewrite IH. split; [intros [->|[? ?]]; auto|].
    intros [[->|?] ?]; auto.
  - rewrite IH. split; [intros [? ?]; auto|].
    intros [[->|?] ?]; [contradiction|auto].
Qed.

End Kept.

(** [filter] by a test that decides [P] on the elements of the list. *)
Lemma filter_Kept_on {A : Type} (P : A -> Prop) (p : A -> bool) (l : list A) :
  (forall x, In x l -> (p x = true <-> P x)) -> Kept P l (List.filter p l).
Proof.
  induction l as [|x l IH]; intros Hp; simpl.
  - constructor.
  - assert (IH' : Kept P l (List.filter p l))
      by (apply IH; intros y Hy; apply Hp; now right).
    pose proof (Hp x (or_introl eq_refl)) as Hx.
    destruct (p x) eqn:E.
    + constructor; [now apply Hx|exact IH'].
    + apply Kept_drop; [|exact IH']. intros HP. apply Hx in HP. congruence.
Qed.


(** ** selectFilteredTodos *)

(** What the selector returns, as a list. *)
Lemma selectFilteredTodos_items
      (toLowerCase : string -> string) (s : TodoState) (w : World) :
  items (fst (selectFilteredTodos toLowerCase s w))
  = let searched :=
      if truthy (searchTerm s)
      then List.filter
             (fun todo =>
                includes (toLowerCase (text todo)) (toLowerCase (searchTerm s)))
             (items (todos s))
      else items (todos s) in
    if (filter s =? "ACTIVE")%string
    then List.filter (fun todo => negb (completed todo)) searched
    else if (filter s =? "COMPLETED")%string
         then List.filter (fun todo => completed todo) searched
         else searched.
Proof.
  unfold selectFilteredTodos, bind.
  destruct (truthy (searchTerm s)); simpl;
    destruct (filter s =? "ACTIVE")%string;
    try destruct (filter s =? "COMPLETED")%string; reflexivity.
Qed.

(** The filter stage keeps exactly the tasks that pass the filter. *)
Lemma filter_stage_Kept (f : string) (searched : list Todo) :
  Kept (passesFilter f) searched
       (if (f =? "ACTIVE")%string
        then List.filter (fun todo => negb (completed todo)) searched
        else if (f =? "COMPLETED")%string
             then List.filter (fun todo => completed todo) searched
             else searched).
Proof.
  unfold passesFilter.
  destruct (String.eqb_spec f "ACTIVE") as [Ea|Ea];
    [|destruct (String.eqb_spec f "COMPLETED") as [Ec|Ec]].
  - apply filter_Kept. intros x. rewrite negb_true_iff, Ea. split.
    + intros Hx. split; [auto|discriminate].
    + intros [H _]. auto.
  - apply filter_Kept. intros x. rewrite Ec. split.
    + intros Hx. split; [discriminate|auto].
    + intros [_ H]. auto.
  - apply Kept_all. intros x. split; intros; contradiction.
Qed.

(** C5. Whatever the host's toLowerCase is, selectFilteredTodos keeps, of
    the todo list, the tasks that pass the search (all of them when the
    search term is empty, otherwise those whose lower-cased text contains
    the lower-cased term), and of these the tasks that pass the filter (not
    completed for ACTIVE, completed for COMPLETED, all of them for any other
    value), in their original order.  When the term and the texts are ASCII,
    on which toLowerCase lowers A..Z and nothing else, the search stage is
    the case-insensitive substring match.  With filter ACTIVE and an empty
    search term the result is exactly the tasks that are not completed, in
    their original order. *)
Theorem selectFilteredTodos_searches_then_filters :
  forall (toLowerCase : string -> string),
    (forall (s : TodoState) (w : World),
        exists searched : list Todo,
          Kept (passesSearch toLowerCase (searchTerm s)) (items (todos s)) searched /\
          Kept (passesFilter (filter s)) searched
               (items (fst (selectFilteredTodos toLowerCase s w)))) /\
    (lowersAscii toLowerCase ->
     forall (s : TodoState) (w : World),
       isAscii (searchTerm s) = true ->
       Forall (fun t => isAscii (text t) = true) (items (todos s)) ->
       exists searched : list Todo,
         Kept (fun t => searchTerm s = ""%string
                        \/ matchesIgnoringCase (searchTerm s) (text t))
              (items (todos s)) searched /\
         Kept (passesFilter (filter s)) searched
              (items (fst (selectFilteredTodos toLowerCase s w)))) /\
    (forall (r : ref) (ts : JsArray Todo) (w : World),
        let result := items (fst (selectFilteredTodos toLowerCase
                                    (mkTodoState r ts "ACTIVE" "") w)) in
        Kept (fun t => completed t = false) (items ts) result /\
        result = List.filter (fun t => negb (completed t)) (items ts)).
Proof.
  intros toLowerCase. split; [|split].
  - intros s w. rewrite selectFilteredTodos_items. cbv zeta.
    eexists. split; [|apply filter_stage_Kept].
    destruct (truthy (searchTerm s)) eqn:Etruthy.
    + apply filter_Kept. intros x. unfold passesSearch, includesLowered.
      rewrite includes_spec. split; [auto|].
      intros [Hempty|Hm]; [|exact Hm].
      rewrite Hempty in Etruthy. discriminate.
    + apply Kept_all. intros x. left. now apply truthy_spec.
  - intros Hascii s w Hterm Htexts. rewrite selectFilteredTodos_items. cbv zeta.
    eexists. split; [|apply filter_stage_Kept].
    destruct (truthy (searchTerm s)) eqn:Etruthy.
    + apply filter_Kept_on. intros x Hx.
      rewrite Forall_forall in Htexts.
      rewrite (Hascii _ (Htexts x Hx)), (Hascii _ Hterm), ascii_search_spec.
      split; [auto|]. intros [Hempty|Hm]; [|exact Hm].
      rewrite Hempty in Etruthy. discriminate.
    + apply Kept_all. intros x. left. now apply truthy_spec.
  - intros r ts w. simpl. split; [|reflexivity].
    apply filter_Kept. intros x. apply negb_true_iff.
Qed.

(** On the sample todos, whose texts are ASCII, with the ASCII lowering. *)
Lemma selectFilteredTodos_witness :
  exists searched : list Todo,
    Kept (fun t => "REACT"%string = ""%string
                   \/ matchesIgnoringCase "REACT" (text t))
         (items (todos Sample.todos0)) searched /\
    Kept (passesFilter "ACTIVE") searched
         (items (fst (selectFilteredTodos toLowerCaseAscii
                        (mkTodoState 0%nat (todos Sample.todos0) "ACTIVE" "REACT")
                        Sample.afterLoad))).
Proof.
  apply (proj1 (proj2 (selectFilteredTodos_searches_then_filters toLowerCaseAscii))
           (fun s _ => eq_refl)
           (mkTodoState 0%nat (todos Sample.todos0) "ACTIVE" "REACT")
           Sample.afterLoad).
  - reflexivity.
  - simpl. repeat constructor.
Defined.

(** Where lower-casing is not case-insensitive matching: a capital sigma is
    in the text as it is, yet the search for it finds nothing, because
    toLowerCase writes the sigma that ends a word in its final form and the
    sigma that stands alone in its plain form. *)
Lemma final_sigma_is_not_found :
  (exists before after : string,
      Sample.capitalAlphaSigma
      = (before ++ Sample.capitalSigma ++ after)%string) /\
  (forall (toLowerCase : string -> string),
      toLowerCase Sample.capitalAlphaSigma = Sample.smallAlphaFinalSigma ->
      toLowerCase Sample.capitalSigma = Sample.smallSigma ->
      forall (r a t : ref) (w : World),
        items (fst (selectFilteredTodos toLowerCase
                      (mkTodoState r
                         (mkArray a [mkTodo t "1" Sample.capitalAlphaSigma false 0])
                         "ALL" Sample.capitalSigma) w))
        = []).
Proof.
  split.
  - exists (Sample.utf8 [206; 145]%nat), ""%string. reflexivity.
  - intros toLowerCase Htext Hterm r a t w.
    rewrite selectFilteredTodos_items. simpl. rewrite Htext, Hterm.
    reflexivity.
Qed.

(** The two readings of toLowerCase that this rests on go together with
    its behaviour on ASCII text. *)
Example final_sigma_readings_are_consistent :
  exists toLowerCase : string -> string,
    lowersAscii toLowerCase /\
    toLowerCase Sample.capitalAlphaSigma = Sample.smallAlphaFinalSigma /\
    toLowerCase Sample.capitalSigma = Sample.smallSigma.
Proof.
  exists (fun s =>
            if (s =? Sample.capitalAlphaSigma)%string then Sample.smallAlphaFinalSigma
            else if (s =? Sample.capitalSigma)%string then Sample.smallSigma
            else toLowerCaseAscii s).
  split; [|split; reflexivity].
  intros s Hs.
  destruct (String.eqb_spec s Sample.capitalAlphaSigma) as [->|_];
    [vm_compute in Hs; discriminate Hs|].
  destruct (String.eqb_spec s Sample.capitalSigma) as [->|_];
    [vm_compute in Hs; discriminate Hs|].
  reflexivity.
Qed.

(** ** selectTodoStats *)

(** The counts, and the percentage as the code computes it: [Math.round] of
    the binary64 product of the binary64 quotient by 100. *)
Lemma selectTodoStats_counts (s : TodoState) (w : World) :
  let stats := fst (selectTodoStats s w) in
  Stats.total stats = Z.of_nat (List.length (items (todos s))) /\
  Stats.completed stats
  = Z.of_nat (List.length (List.filter completed (items (todos s)))) /\
  Stats.active stats = Stats.total stats - Stats.completed stats /\
  Stats.completionPercentage stats
  = if 0 <? Stats.total stats
    then Math_round
           (PrimFloat.mul
              (PrimFloat.div (toNumber (Stats.completed stats))
                 (toNumber (Stats.total stats)))
              (toNumber 100))
    else PrimFloat.zero.
Proof.
  simpl. unfold Array_length. simpl. repeat split.
Qed.

(** On the empty list every count is 0 and so is the percentage. *)
Lemma selectTodoStats_empty (r a : ref) (f q : string) (w : World) :
  let stats := fst (selectTodoStats (mkTodoState r (mkArray a []) f q) w) in
  Stats.total stats = 0 /\ Stats.completed stats = 0 /\
  Stats.active stats = 0 /\ Stats.completionPercentage stats = PrimFloat.zero.
Proof.
  simpl. repeat split.
Qed.

(** Where the exact quotient is a multiple of 1/8 the code agrees with the
    exact rounding: 1 of 8 is 12.5 percent, shown as 13. *)
Example completionPercentage_1_of_8 :
  Stats.completionPercentage
    (fst (selectTodoStats (Sample.tasks 8 1) Sample.stuckWorld))
  = toNumber (exactPercentage 1 8).
Proof.
  vm_compute. reflexivity.
Qed.

(** C8. With 23 of 40 tasks completed the counts are 40, 23 and 17, and the
    exact percentage is 57.5, which rounds to 58; but 23/40 is not a
    binary64 number, the product of its nearest binary64 number by 100 falls
    below 57.5, and the code returns 57. *)
Theorem completionPercentage_23_of_40 :
  let stats := fst (selectTodoStats (Sample.tasks 40 23) Sample.stuckWorld) in
  Stats.total stats = 40 /\
  Stats.completed stats = 23 /\
  Stats.active stats = 17 /\
  PrimFloat.ltb
    (PrimFloat.mul (PrimFloat.div (toNumber 23) (toNumber 40)) (toNumber 100))
    (PrimFloat.div (toNumber 115) (toNumber 2)) = true /\
  Stats.completionPercentage stats = toNumber 57 /\
  exactPercentage 23 40 = 58 /\
  Stats.completionPercentage stats <> toNumber (exactPercentage 23 40).
Proof.
  cbv zeta.
  repeat (split; [vm_compute; reflexivity|]).
  intros H.
  apply (f_equal (fun x => PrimFloat.eqb x (toNumber (exactPercentage 23 40)))) in H.
  vm_compute in H. discriminate H.
Qed.

(** ** The model at work on the sample data *)

Example lastAction_of_incrementByAmount :
  option_map (fun r => counterContents (fst r))
             (run (counterReducer Sample.counter0 None (incrementByAmount (-5)))
                  Sample.afterLoad)
  = Some ((-5)%float, "increment by -5"%string).
Proof.
  vm_compute. reflexivity.
Qed.

Example search_is_case_insensitive :
  map id (items (fst (selectFilteredTodos toLowerCaseAscii
                        (mkTodoState 0%nat (todos Sample.todos0) "ACTIVE" "REACT")
                        Sample.afterLoad)))
  = ["3"%string].
Proof.
  vm_compute. reflexivity.
Qed.

(** Add a task, toggle it, show the completed ones: the new task and the
    sample task that was completed from the start. *)
Example completed_after_adding_and_toggling :
  option_map
    (fun r =>
       map text (items (fst (selectFilteredTodos toLowerCaseAscii (fst r) (snd r)))))
    (Todo.dispatchAll Sample.todos0 Sample.todos0
       [addTodo "Buy milk"; toggleTodo "17000000000004fzyo82mv";
        setFilter "COMPLETED"] Sample.afterLoad)
  = Some ["Buy milk"; "Learn Redux fundamentals"]%string.
Proof.
  vm_compute. reflexivity.
Qed.

(* ========================================================================= *)
(** * Further properties of the counter slice *)
(* ========================================================================= *)

(** What a counter step is: a new object for a recognized tag, the state
    itself otherwise. *)
Lemma counterReducer_cases (init s : CounterState) (a : Action) (w : World) :
  counterTyped a = true ->
  (In (type a) Counter.recognized /\
   run (counterReducer init (Some s) a) w
   = Some (mkCounterState (nextRef w) (nextValue (value s) a) (labelOf a),
           snd (newObject w))) \/
  (~ In (type a) Counter.recognized /\
   run (counterReducer init (Some s) a) w = Some (s, w)).
Proof.
  intros Hty.
  destruct (in_dec string_dec (type a) Counter.recognized) as [Hin|Hout].
  - left. split; [exact Hin|].
    unfold counterTyped, counterReducer, nextValue, labelOf in *.
    destruct Hin as [e|[e|[e|[e|[]]]]]; rewrite <- e in *; simpl in *.
    + reflexivity.
    + reflexivity.
    + destruct (payload a); try discriminate. reflexivity.
    + reflexivity.
  - right. split; [exact Hout|].
    unfold counterReducer.
    rewrite (eqb_outside _ INCREMENT _ Hout) by known_tag.
    rewrite (eqb_outside _ DECREMENT _ Hout) by known_tag.
    rewrite (eqb_outside _ INCREMENT_BY_AMOUNT _ Hout) by known_tag.
    rewrite (eqb_outside _ RESET _ Hout) by known_tag.
    reflexivity.
Qed.






(** X2. A recognized counter action always answers with a newly allocated
    state object, distinct from the one it was given, also when the value
    does not change (reset at 0, incrementByAmount 0). *)
Theorem recognized_counter_action_allocates :
  forall (init s : CounterState) (a : Action) (w : World),
    counterTyped a = true ->
    In (type a) Counter.recognized ->
    (counterRef s < nextRef w)%nat ->
    exists s' w',
      run (counterReducer init (Some s) a) w = Some (s', w') /\
      counterRef s' = nextRef w /\
      nextRef w' = S (nextRef w) /\
      s' <> s.
Proof.
  intros init s a w Hty Hin Hold.
  destruct (counterReducer_cases init s a w Hty) as [[_ Hstep]|[Hout _]];
    [|contradiction].
  eexists _, _. split; [exact Hstep|]. simpl.
  split; [reflexivity|]. split; [reflexivity|].
  intros Hsame. rewrite <- Hsame in Hold. simpl in Hold. lia.
Qed.

Lemma recognized_counter_action_witness :
  exists s' w',
    run (counterReducer Sample.counter0 (Some Sample.counter0) reset)
        Sample.afterLoad = Some (s', w') /\
    value s' = value Sample.counter0 /\
    s' <> Sample.counter0.
Proof.
  destruct (recognized_counter_action_allocates
              Sample.counter0 Sample.counter0 reset Sample.afterLoad)
    as (s' & w' & Hrun & Href & _ & Hnew).
  - reflexivity.
  - simpl. auto.
  - simpl. lia.
  - exists s', w'. split; [exact Hrun|]. split; [|exact Hnew].
    simpl in Hrun. injection Hrun as <- _. reflexivity.
Defined.

Lemma sumFromZero_perm (l l' : list Z) :
  Permutation l l' -> sumFromZero l = sumFromZero l'.
Proof.
  induction 1 as [|x l l' _ IH|x y l|l l' l'' _ IH1 _ IH2].
  - reflexivity.
  - rewrite !sumFromZero_cons. lia.
  - rewrite !sumFromZero_cons. lia.
  - congruence.
Qed.

(** X3. Without a reset, and as long as the payloads and the running values
    are safe integers in both orders, the order of the operations does not
    matter to the value: two runs of the same operations in different
    orders, from the same state, end with the same value, the starting value
    plus the sum of the effects. *)
Theorem counter_value_independent_of_order :
  forall (init s : CounterState) (v0 : Z) (actions actions' : list Action)
         (w w' : World),
    Permutation actions actions' ->
    Forall (fun a => counterTyped a = true) actions ->
    existsb isReset actions = false ->
    value s = Number_ofZ v0 ->
    safeInteger v0 ->
    staysSafe v0 actions ->
    staysSafe v0 actions' ->
    exists s1 w1 s2 w2,
      Counter.dispatchAll init s actions w = Some (s1, w1) /\
      Counter.dispatchAll init s actions' w' = Some (s2, w2) /\
      value s1 = value s2 /\
      value s1 = Number_ofZ (v0 + sumFromZero (map contribution actions)).
Proof.
  intros init s v0 actions actions' w w' Hperm Hty Hnone Hv0 Hsafe0 Hsafe Hsafe'.
  assert (Hty' : Forall (fun a => counterTyped a = true) actions').
  { eapply Permutation_Forall; eassumption. }
  assert (Hnone' : existsb isReset actions' = false).
  { destruct (existsb isReset actions') eqn:E; [|reflexivity].
    apply existsb_exists in E as (x & Hx & Hr).
    assert (Hex : existsb isReset actions = true).
    { apply existsb_exists. exists x. split; [|exact Hr].
      eapply Permutation_in; [apply Permutation_sym|]; eassumption. }
    congruence. }
  destruct (dispatchAll_value init actions Hty s v0 w Hv0 Hsafe0 Hsafe)
    as (s1 & w1 & Hrun1 & Hval1).
  destruct (dispatchAll_value init actions' Hty' s v0 w' Hv0 Hsafe0 Hsafe')
    as (s2 & w2 & Hrun2 & Hval2).
  exists s1, w1, s2, w2. split; [exact Hrun1|]. split; [exact Hrun2|].
  rewrite Hnone, (afterLastReset_without_reset _ Hnone) in Hval1.
  rewrite Hnone', (afterLastReset_without_reset _ Hnone') in Hval2.
  split; [|exact Hval1].
  rewrite Hval1, Hval2. do 2 f_equal.
  apply sumFromZero_perm. now apply Permutation_map.
Qed.

Lemma counter_order_witness :
  exists s1 w1 s2 w2,
    Counter.dispatchAll Sample.counter0 Sample.counter0
      [increment; incrementByAmount 5; decrement] Sample.afterLoad = Some (s1, w1) /\
    Counter.dispatchAll Sample.counter0 Sample.counter0
      [decrement; increment; incrementByAmount 5] Sample.stuckWorldLater
    = Some (s2, w2) /\
    value s1 = value s2 /\ value s1 = 5%float.
Proof.
  destruct (counter_value_independent_of_order
              Sample.counter0 Sample.counter0 0
              [increment; incrementByAmount 5; decrement]
              [decrement; increment; incrementByAmount 5]
              Sample.afterLoad Sample.stuckWorldLater)
    as (s1 & w1 & s2 & w2 & H1 & H2 & Hsame & Hval).
  - apply Permutation_sym. apply (Permutation_cons_append [_; _] decrement).
  - repeat constructor.
  - reflexivity.
  - vm_compute. reflexivity.
  - unfold safeInteger. lia.
  - vm_compute. repeat split.
  - vm_compute. repeat split.
  - exists s1, w1, s2, w2.
    split; [exact H1|]. split; [exact H2|]. split; [exact Hsame|].
    rewrite Hval. vm_compute. reflexivity.
Defined.

(** Beyond the safe integers the order does matter: adding 2^53 after two
    increments gives 2^53 + 2, adding it before them gives 2^53. *)
Example order_matters_beyond_safe_integers :
  option_map (fun r => PrimFloat.eqb (value (fst r)) (Number_ofZ (2 ^ 53 + 2)))
    (Counter.dispatchAll Sample.counter0 Sample.counter0
       [increment; increment; incrementByAmount (2 ^ 53)] Sample.afterLoad)
  = Some true /\
  option_map (fun r => PrimFloat.eqb (value (fst r)) (Number_ofZ (2 ^ 53)))
    (Counter.dispatchAll Sample.counter0 Sample.counter0
       [incrementByAmount (2 ^ 53); increment; increment] Sample.afterLoad)
  = Some true /\
  PrimFloat.eqb (Number_ofZ (2 ^ 53 + 2)) (Number_ofZ (2 ^ 53)) = false.
Proof.
  repeat split; vm_compute; reflexivity.
Qed.

(** ** The selectors of the counter *)

Lemma ltb_ofZ (z : Z) :
  safeInteger z -> PrimFloat.ltb 0%float (Number_ofZ z) = (0 <? z).
Proof.
  intros Hz. rewrite FloatAxioms.ltb_spec, (Prim2SF_ofZ z Hz).
  destruct z; reflexivity.
Qed.

(** The remainder by 2 of a safe integer, held in binary64, is 0 exactly
    when the integer is even. *)
Lemma rem2_canon (s : bool) (c : positive) :
  Zpos (digits2_pos c) <= 53 ->
  PrimFloat.eqb
    (let m := shl c (Z.to_nat (53 - Zpos (digits2_pos c))) in
     let e := Zpos (digits2_pos c) - 53 in
     let r := if 1 <=? e then 0 else Z.pos m mod 2 ^ (1 - e) in
     if r =? 0 then (if s then PrimFloat.neg_zero else PrimFloat.zero)
     else SF2Prim (binary_normalize prec emax (if s then - r else r) e false))
    0%float
  = Z.even (Zpos c).
Proof.
  intros Hd. cbv zeta. rewrite shl_value.
  remember (Zpos (digits2_pos c)) as d eqn:Ed.
  assert (Hd1 : 1 <= d) by (subst d; lia).
  replace (1 <=? d - 53) with false by (symmetry; apply Z.leb_gt; lia).
  rewrite Z2Nat.id by lia.
  replace (1 - (d - 53)) with ((53 - d) + 1) by lia.
  rewrite Z.pow_add_r by lia.
  rewrite (Z.mul_comm (Zpos c)), Z.mul_mod_distr_l by lia.
  change (2 ^ 1) with 2. rewrite Zmod_even.
  destruct (Z.even (Zpos c)).
  - rewrite Z.mul_0_r. simpl. destruct s; reflexivity.
  - rewrite Z.mul_1_r.
    assert (Hpow : 0 < 2 ^ (53 - d)) by (apply Z.pow_pos_nonneg; lia).
    replace (2 ^ (53 - d) =? 0) with false by (symmetry; apply Z.eqb_neq; lia).
    replace (d - 53) with (- Z.of_nat (Z.to_nat (53 - d))) by lia.
    replace (2 ^ (53 - d)) with (2 ^ Z.of_nat (Z.to_nat (53 - d)))
      by (rewrite Z2Nat.id by lia; reflexivity).
    destruct s.
    + replace (- 2 ^ Z.of_nat (Z.to_nat (53 - d)))
        with (-1 * 2 ^ Z.of_nat (Z.to_nat (53 - d))) by lia.
      rewrite normalize_shifted by (unfold safeInteger; lia).
      vm_compute. reflexivity.
    + replace (2 ^ Z.of_nat (Z.to_nat (53 - d)))
        with (1 * 2 ^ Z.of_nat (Z.to_nat (53 - d))) at 1 by lia.
      rewrite normalize_shifted by (unfold safeInteger; lia).
      vm_compute. reflexivity.
Qed.

Lemma rem2_ofZ (z : Z) :
  safeInteger z ->
  PrimFloat.eqb (Number_rem2 (Number_ofZ z)) 0%float = Z.even z.
Proof.
  intros Hz. unfold Number_rem2. rewrite (Prim2SF_ofZ z Hz).
  destruct z as [|c|c].
  - vm_compute. reflexivity.
  - apply (rem2_canon false c), safe_digits. now left.
  - change (Z.even (Zneg c)) with (Z.even (Zpos c)).
    apply (rem2_canon true c), safe_digits. now right.
Qed.

(** X4. On a safe integer, [selectIsEven] tells the parity of the value,
    for negative values too, and [selectIsPositive] whether it is above 0;
    increment and decrement each turn an even value into an odd one and
    back, as long as the next value is a safe integer too. *)
Theorem parity_selector_and_steps :
  forall (init s : CounterState) (v : Z) (w : World),
    value s = Number_ofZ v ->
    safeInteger v ->
    selectIsEven s = Z.even v /\
    (selectIsPositive s = true <-> 0 < v) /\
    (safeInteger (v + 1) ->
     exists s' w', run (counterReducer init (Some s) increment) w = Some (s', w') /\
                   selectIsEven s' = negb (selectIsEven s)) /\
    (safeInteger (v - 1) ->
     exists s' w', run (counterReducer init (Some s) decrement) w = Some (s', w') /\
                   selectIsEven s' = negb (selectIsEven s)).
Proof.
  intros init s v w Hv Hsafe. unfold selectIsEven, selectIsPositive.
  rewrite Hv, (rem2_ofZ v Hsafe), (ltb_ofZ v Hsafe).
  split; [reflexivity|]. split; [apply Z.ltb_lt|].
  split; intros Hnext; eexists _, _; (split; [reflexivity|]); simpl;
    rewrite Hv, one_is_Number.
  - rewrite add_safe, rem2_ofZ by (auto; unfold safeInteger; lia).
    rewrite Z.add_1_r, Z.even_succ. symmetry. apply Z.negb_even.
  - rewrite sub_safe, rem2_ofZ by (auto; unfold safeInteger; lia).
    rewrite Z.sub_1_r, Z.even_pred. symmetry. apply Z.negb_even.
Qed.

Lemma parity_witness :
  selectIsEven (mkCounterState 0%nat (Number_ofZ (-3)) "decrement") = false /\
  selectIsPositive (mkCounterState 0%nat (Number_ofZ (-3)) "decrement") = false /\
  exists s' w',
    run (counterReducer Sample.counter0
           (Some (mkCounterState 0%nat (Number_ofZ (-3)) "decrement")) increment)
        Sample.afterLoad = Some (s', w') /\
    selectIsEven s' = true.
Proof.
  destruct (parity_selector_and_steps Sample.counter0
              (mkCounterState 0%nat (Number_ofZ (-3)) "decrement") (-3)
              Sample.afterLoad)
    as (Heven & Hpos & Hinc & _).
  - reflexivity.
  - unfold safeInteger. lia.
  - split; [exact Heven|]. split.
    + destruct (selectIsPositive _); [|reflexivity].
      pose proof (proj1 Hpos eq_refl). lia.
    + destruct Hinc as (s' & w' & Hrun & Hflip).
      * unfold safeInteger. lia.
      * exists s', w'. split; [exact Hrun|]. rewrite Hflip, Heven. reflexivity.
Defined.

(* ========================================================================= *)
(** * Further properties of the todo slice *)
(* ========================================================================= *)

(** ** The branches that rebuild the list with [map] *)

(** The world after the state object and the array of a [map] branch have
    been allocated. *)
Lemma map_branch_eq (f : Todo -> M Todo) (s : TodoState) (w : World) :
  (r <- newObject ;; ts <- Array_map f (todos s) ;;
   ret (mkTodoState r ts (filter s) (searchTerm s))) w
  = (mkTodoState (nextRef w)
       (mkArray (S (nextRef w))
          (fst (mapM f (items (todos s)) (snd (newObject (snd (newObject w)))))))
       (filter s) (searchTerm s),
     snd (mapM f (items (todos s)) (snd (newObject (snd (newObject w)))))).
Proof.
  unfold Array_map, bind. simpl.
  destruct (mapM f (items (todos s)) _) as [ys w']. reflexivity.
Qed.

(** The callback never lowers the allocator. *)
Lemma mapM_nextRef {A B : Type} (f : A -> M B) :
  (forall x w, (nextRef w <= nextRef (snd (f x w)))%nat) ->
  forall l w, (nextRef w <= nextRef (snd (mapM f l w)))%nat.
Proof.
  intros Hf. induction l as [|x l IH]; intros w; simpl.
  - lia.
  - unfold bind. specialize (Hf x w). destruct (f x w) as [y w1].
    specialize (IH w1). destruct (mapM f l w1) as [ys w2]. simpl in *. lia.
Qed.

(** X5. toggleTodo(id) hands on, at its position, the very object of every
    task with another id, and replaces a task with that id by an object with
    [completed] inverted and the other fields copied. *)
Theorem toggleTodo_touches_only_matching :
  forall (init s : TodoState) (target : string) (w : World),
    exists s' w',
      run (todoReducer init (Some s) (toggleTodo target)) w = Some (s', w') /\
      Forall2 (fun old new =>
                 (id old <> target -> new = old) /\
                 (id old = target ->
                  todoFields new
                  = (id old, text old, negb (completed old), createdAt old)))
              (items (todos s)) (items (todos s')) /\
      stateRef s' = nextRef w /\
      arrayRef (todos s') = S (nextRef w).
Proof.
  intros init s target w.
  unfold todoReducer, toggleTodo. simpl. rewrite map_branch_eq.
  eexists _, _. split; [reflexivity|]. simpl.
  split; [|split; reflexivity].
  apply mapM_Forall2. intros x u.
  destruct (String.eqb_spec (id x) target) as [e|ne]; simpl.
  - split; [contradiction|reflexivity].
  - split; [reflexivity|contradiction].
Qed.

(** X6. editTodo(id, text) hands on the very object of every task with
    another id, and replaces a task with that id by an object with the new
    text and the other fields copied; afterwards every task with that id has
    the new text, and the ids are the same list as before. *)
Theorem editTodo_replaces_text :
  forall (init s : TodoState) (target newText : string) (w : World),
    exists s' w',
      run (todoReducer init (Some s) (editTodo target newText)) w = Some (s', w') /\
      Forall2 (fun old new =>
                 (id old <> target -> new = old) /\
                 (id old = target ->
                  todoFields new
                  = (id old, newText, completed old, createdAt old)))
              (items (todos s)) (items (todos s')) /\
      (forall t, In t (items (todos s')) -> id t = target -> text t = newText) /\
      map id (items (todos s')) = map id (items (todos s)) /\
      filter s' = filter s /\ searchTerm s' = searchTerm s.
Proof.
  intros init s target newText w.
  unfold todoReducer, editTodo. simpl. rewrite map_branch_eq.
  eexists _, _. split; [reflexivity|]. simpl.
  match goal with |- context [mapM ?g _ _] => set (f := g) end.
  assert (Hall : Forall2 (fun old new =>
                 (id old <> target -> new = old) /\
                 (id old = target ->
                  todoFields new
                  = (id old, newText, completed old, createdAt old)))
              (items (todos s))
              (fst (mapM f (items (todos s)) (snd (newObject (snd (newObject w))))))).
  { apply mapM_Forall2. intros x u. unfold f.
    destruct (String.eqb_spec (id x) target) as [e|ne]; simpl.
    - split; [contradiction|reflexivity].
    - split; [reflexivity|contradiction]. }
  set (l' := fst (mapM f _ _)) in *. clearbody l'.
  split; [exact Hall|].
  split; [|split; [|split; reflexivity]].
  - induction Hall as [|old new l l' [Hother Hsame] _ IH]; simpl.
    + intros t [].
    + intros t [<-|Hin] Hid; [|now apply IH].
      destruct (string_dec (id old) target) as [e|ne].
      * specialize (Hsame e). unfold todoFields in Hsame. congruence.
      * rewrite (Hother ne) in Hid. contradiction.
  - apply (same_ids (fun old new =>
                 (id old <> target -> new = old) /\
                 (id old = target ->
                  todoFields new
                  = (id old, newText, completed old, createdAt old))));
      [|exact Hall].
    intros old new [Hother Hsame].
    destruct (string_dec (id old) target) as [e|ne].
    + specialize (Hsame e). unfold todoFields in Hsame. congruence.
    + now rewrite (Hother ne).
Qed.

(** ** deleteTodo and clearCompleted *)

Lemma filter_split_length {A : Type} (p : A -> bool) (l : list A) :
  (List.length (List.filter p l)
   + List.length (List.filter (fun x => negb (p x)) l))%nat = List.length l.
Proof.
  induction l as [|x l IH]; simpl; [reflexivity|].
  destruct (p x); simpl; lia.
Qed.

Lemma filter_twice {A : Type} (p : A -> bool) (l : list A) :
  List.filter p (List.filter p l) = List.filter p l.
Proof.
  apply filter_all. intros x Hx. now apply filter_In in Hx.
Qed.

(** X7. deleteTodo(id) keeps, in their order, exactly the task objects whose
    id is another one: none with that id is left, the list shrinks by the
    number of tasks that had it, and deleting the same id again changes
    nothing in the list. *)
Theorem deleteTodo_removes_exactly :
  forall (init s : TodoState) (target : string) (w : World),
    exists s' w' s'' w'',
      run (todoReducer init (Some s) (deleteTodo target)) w = Some (s', w') /\
      run (todoReducer init (Some s') (deleteTodo target)) w' = Some (s'', w'') /\
      Kept (fun t => id t <> target) (items (todos s)) (items (todos s')) /\
      (forall t, In t (items (todos s')) -> id t <> target) /\
      (List.length (items (todos s'))
       + List.length (List.filter (fun t => (id t =? target)%string)
                        (items (todos s))))%nat
      = List.length (items (todos s)) /\
      items (todos s'') = items (todos s') /\
      filter s' = filter s /\ searchTerm s' = searchTerm s.
Proof.
  intros init s target w.
  unfold todoReducer, deleteTodo. simpl.
  eexists _, _, _, _. split; [reflexivity|]. split; [reflexivity|]. simpl.
  assert (Hp : forall x : Todo,
             negb (id x =? target)%string = true <-> id x <> target).
  { intros x. rewrite negb_true_iff. apply String.eqb_neq. }
  split; [now apply filter_Kept|].
  split; [intros t Ht; apply filter_In in Ht as [_ Ht]; now apply Hp|].
  split.
  - rewrite Nat.add_comm.
    apply (filter_split_length (fun t => (id t =? target)%string)).
  - split; [apply filter_twice|]. split; reflexivity.
Qed.

(** X8. clearCompleted keeps, in their order, exactly the task objects that
    are not completed; afterwards [selectTodoStats] counts no completed task
    and as many active ones as before, [selectAllTodosCompleted] is false,
    and clearing again changes nothing in the list. *)
Theorem clearCompleted_keeps_active :
  forall (init s : TodoState) (w u : World),
    exists s' w' s'' w'',
      run (todoReducer init (Some s) clearCompleted) w = Some (s', w') /\
      run (todoReducer init (Some s') clearCompleted) w' = Some (s'', w'') /\
      Kept (fun t => completed t = false) (items (todos s)) (items (todos s')) /\
      Stats.completed (fst (selectTodoStats s' u)) = 0 /\
      Stats.active (fst (selectTodoStats s' u))
      = Stats.active (fst (selectTodoStats s u)) /\
      Stats.total (fst (selectTodoStats s' u))
      = Stats.active (fst (selectTodoStats s u)) /\
      selectAllTodosCompleted s' = false /\
      items (todos s'') = items (todos s').
Proof.
  intros init s w u.
  unfold todoReducer, clearCompleted. simpl.
  eexists _, _, _, _. split; [reflexivity|]. split; [reflexivity|]. simpl.
  set (l := items (todos s)).
  assert (Hnone : List.filter (fun todo => completed todo)
                    (List.filter (fun todo => negb (completed todo)) l) = []).
  { induction l as [|x l IH]; simpl; [reflexivity|].
    destruct (completed x) eqn:E; simpl; [exact IH|]. now rewrite E. }
  split; [apply filter_Kept; intros x; apply negb_true_iff|].
  unfold Array_length, selectAllTodosCompleted, Array_length, Array_every. simpl.
  fold l. rewrite Hnone. simpl.
  pose proof (filter_split_length (fun todo : Todo => completed todo) l) as Hlen.
  cbv beta in Hlen.
  split; [reflexivity|]. split; [lia|]. split; [lia|].
  split; [|apply filter_twice].
  destruct (List.filter (fun todo => negb (completed todo)) l) as [|x rest] eqn:E.
  - reflexivity.
  - assert (Hx : In x (List.filter (fun todo => negb (completed todo)) l)).
    { rewrite E. now left. }
    apply filter_In in Hx as [_ Hx]. apply negb_true_iff in Hx.
    simpl. rewrite Hx. reflexivity.
Qed.

(** ** setFilter and setSearchTerm *)

(** X9. setFilter and setSearchTerm store the string they are given, any
    string, in their own field, leave the other field alone and hand on the
    todos array itself (same identity, same elements); the statistics are
    the same before and after. *)
Theorem setFilter_setSearchTerm_keep_the_array :
  forall (init s : TodoState) (v : string) (w u : World),
    (exists s' w',
        run (todoReducer init (Some s) (setFilter v)) w = Some (s', w') /\
        todos s' = todos s /\
        selectCurrentFilter s' = v /\
        selectSearchTerm s' = selectSearchTerm s /\
        fst (selectTodoStats s' u) = fst (selectTodoStats s u)) /\
    (exists s' w',
        run (todoReducer init (Some s) (setSearchTerm v)) w = Some (s', w') /\
        todos s' = todos s /\
        selectSearchTerm s' = v /\
        selectCurrentFilter s' = selectCurrentFilter s /\
        fst (selectTodoStats s' u) = fst (selectTodoStats s u)).
Proof.
  intros init s v w u. unfold todoReducer, setFilter, setSearchTerm. simpl.
  split; eexists _, _; (split; [reflexivity|]); simpl; repeat split.
Qed.

(** ** addTodo *)

(** One addTodo, with the id as [generateId] gives it in the world of the
    call. *)
Lemma addTodo_step (init s : TodoState) (newText : string) (w : World) :
  exists s' w' t,
    run (todoReducer init (Some s) (addTodo newText)) w = Some (s', w') /\
    items (todos s') = t :: items (todos s) /\
    id t = fst (generateId w) /\
    text t = newText /\ completed t = false /\
    filter s' = filter s /\ searchTerm s' = searchTerm s.
Proof.
  unfold todoReducer, addTodo. simpl.
  eexists _, _, _. split; [reflexivity|]. simpl. repeat split.
Qed.

(** X10. Tasks added one after the other come first in the list, the most
    recent first, each not completed, in front of the task objects that
    were there, which keep their order. *)
Theorem addTodo_most_recent_first :
  forall (init : TodoState) (texts : list string) (s : TodoState) (w : World),
    exists s' w' added,
      Todo.dispatchAll init s (map addTodo texts) w = Some (s', w') /\
      items (todos s') = (added ++ items (todos s))%list /\
      map text added = rev texts /\
      Forall (fun t => completed t = false) added.
Proof.
  intros init texts. induction texts as [|newText texts IH]; intros s w.
  - exists s, w, []. repeat split. constructor.
  - destruct (addTodo_step init s newText w)
      as (s1 & w1 & t & Hrun & Hitems & _ & Htext & Hdone & _).
    destruct (IH s1 w1) as (s' & w' & added & Hrest & Hitems' & Htexts & Hall).
    exists s', w', (added ++ [t])%list.
    split; [|split; [|split]].
    + change (map addTodo (newText :: texts))
        with (addTodo newText :: map addTodo texts).
      cbn [Todo.dispatchAll]. rewrite Hrun. exact Hrest.
    + rewrite Hitems', Hitems, <- app_assoc. reflexivity.
    + rewrite map_app, Htexts. simpl. now rewrite Htext.
    + apply Forall_app. split; [exact Hall|]. now constructor.
Qed.

(** X11. Adding a task and then deleting the id it received gives back the
    list of task objects there was, provided the id was not already in the
    list (deleteTodo would remove those tasks too). *)
Theorem addTodo_then_deleteTodo_restores :
  forall (init s : TodoState) (newText : string) (w : World),
    ~ In (fst (generateId w)) (map id (items (todos s))) ->
    exists s1 w1 s2 w2,
      run (todoReducer init (Some s) (addTodo newText)) w = Some (s1, w1) /\
      run (todoReducer init (Some s1) (deleteTodo (fst (generateId w)))) w1
      = Some (s2, w2) /\
      items (todos s2) = items (todos s).
Proof.
  intros init s newText w Hfresh.
  destruct (addTodo_step init s newText w)
    as (s1 & w1 & t & Hrun & Hitems & Hid & _).
  remember (fst (generateId w)) as newId eqn:HnewId.
  exists s1, w1. unfold todoReducer at 2, deleteTodo. simpl.
  eexists _, _. split; [exact Hrun|]. split; [reflexivity|]. simpl.
  rewrite Hitems. simpl. rewrite Hid, String.eqb_refl. simpl.
  apply filter_all. intros x Hx. apply negb_true_iff, String.eqb_neq.
  intros Heq. apply Hfresh. rewrite <- Heq. now apply in_map.
Qed.

Lemma addTodo_then_deleteTodo_witness :
  exists s1 w1 s2 w2,
    run (todoReducer Sample.todos0 (Some Sample.todos0) (addTodo "Buy milk"))
        Sample.afterLoad = Some (s1, w1) /\
    run (todoReducer Sample.todos0 (Some s1)
           (deleteTodo (fst (generateId Sample.afterLoad)))) w1
    = Some (s2, w2) /\
    items (todos s2) = items (todos Sample.todos0).
Proof.
  apply (addTodo_then_deleteTodo_restores
           Sample.todos0 Sample.todos0 "Buy milk" Sample.afterLoad).
  vm_compute. intros [H|[H|[H|[]]]]; discriminate H.
Defined.

(** ** What the operations other than addTodo do to the list *)

Lemma Forall2_same {A : Type} (R : A -> A -> Prop) (l : list A) :
  (forall x, R x x) -> Forall2 R l l.
Proof.
  intros HR. induction l; constructor; auto.
Qed.

Lemma filter_true {A : Type} (l : list A) : List.filter (fun _ => true) l = l.
Proof.
  apply filter_all. reflexivity.
Qed.

(** Every operation other than addTodo selects tasks of the list and hands
    each one on or copies it, id and creation time included. *)
Lemma non_add_step_shape
      (init s : TodoState) (a : Action) (w : World) (s' : TodoState) (w' : World) :
  type a <> ADD_TODO ->
  run (todoReducer init (Some s) a) w = Some (s', w') ->
  exists p : Todo -> bool,
    Forall2 (fun old new => id new = id old /\ createdAt new = createdAt old)
            (List.filter p (items (todos s))) (items (todos s')).
Proof.
  unfold todoReducer. intros Hnot Hrun.
  destruct (String.eqb_spec (type a) ADD_TODO) as [e|_]; [contradiction|].
  destruct (type a =? TOGGLE_TODO)%string.
  { destruct (payload a) as [|amount|target|target newText]; try discriminate.
    simpl in Hrun. rewrite map_branch_eq in Hrun. injection Hrun as <- _. simpl.
    exists (fun _ => true). rewrite filter_true.
    apply mapM_Forall2. intros x u.
    destruct (id x =? target)%string; split; reflexivity. }
  destruct (type a =? DELETE_TODO)%string.
  { destruct (payload a) as [|amount|target|target newText]; try discriminate.
    simpl in Hrun. injection Hrun as <- _. simpl.
    eexists. apply Forall2_same. auto. }
  destruct (type a =? EDIT_TODO)%string.
  { destruct (payload a) as [|amount|target|target newText]; try discriminate.
    simpl in Hrun. rewrite map_branch_eq in Hrun. injection Hrun as <- _. simpl.
    exists (fun _ => true). rewrite filter_true.
    apply mapM_Forall2. intros x u.
    destruct (id x =? target)%string; split; reflexivity. }
  destruct (type a =? CLEAR_COMPLETED)%string.
  { simpl in Hrun. injection Hrun as <- _. simpl.
    eexists. apply Forall2_same. auto. }
  destruct (type a =? SET_FILTER)%string.
  { destruct (payload a) as [|amount|target|target newText]; try discriminate.
    simpl in Hrun. injection Hrun as <- _. simpl.
    exists (fun _ => true). rewrite filter_true. apply Forall2_same. auto. }
  destruct (type a =? SET_SEARCH_TERM)%string.
  { destruct (payload a) as [|amount|target|target newText]; try discriminate.
    simpl in Hrun. injection Hrun as <- _. simpl.
    exists (fun _ => true). rewrite filter_true. apply Forall2_same. auto. }
  destruct (type a =? MARK_ALL_COMPLETE)%string.
  { simpl in Hrun. rewrite map_branch_eq in Hrun. injection Hrun as <- _. simpl.
    exists (fun _ => true). rewrite filter_true.
    apply mapM_Forall2. intros x u. split; reflexivity. }
  simpl in Hrun. injection Hrun as <- _.
  exists (fun _ => true). rewrite filter_true. apply Forall2_same. auto.
Qed.

Lemma filter_length_le {A : Type} (p : A -> bool) (l : list A) :
  (List.length (List.filter p l) <= List.length l)%nat.
Proof.
  induction l as [|x l IH]; simpl; [lia|]. destruct (p x); simpl; lia.
Qed.

Lemma Forall2_In_r {A B : Type} (R : A -> B -> Prop) (l : list A) (l' : list B) :
  Forall2 R l l' -> forall y, In y l' -> exists x, In x l /\ R x y.
Proof.
  induction 1 as [|x y l l' Hxy _ IH]; intros z Hz; simpl in *.
  - contradiction.
  - destruct Hz as [<-|Hz]; [eauto|].
    destruct (IH z Hz) as (x' & Hx' & HR). eauto.
Qed.

(** X12. Only addTodo brings tasks into the list: after any other
    operation, whatever its tag and payload, the list is no longer than
    before, and each of its tasks has the id and the creation time of a task
    that was there. *)
Theorem only_addTodo_adds_tasks :
  forall (init s : TodoState) (a : Action) (w : World) (s' : TodoState) (w' : World),
    type a <> ADD_TODO ->
    run (todoReducer init (Some s) a) w = Some (s', w') ->
    (List.length (items (todos s')) <= List.length (items (todos s)))%nat /\
    (forall t', In t' (items (todos s')) ->
                exists t, In t (items (todos s)) /\
                          id t' = id t /\ createdAt t' = createdAt t).
Proof.
  intros init s a w s' w' Hnot Hrun.
  destruct (non_add_step_shape init s a w s' w' Hnot Hrun) as [p Hshape].
  split.
  - rewrite <- (Forall2_length Hshape). apply filter_length_le.
  - intros t' Ht'.
    destruct (Forall2_In_r _ _ _ Hshape t' Ht') as (t & Ht & Hsame).
    apply filter_In in Ht as [Ht _]. eauto.
Qed.

Lemma only_addTodo_witness :
  let after := run (todoReducer Sample.todos0 (Some Sample.todos0)
                      (deleteTodo "2")) Sample.afterLoad in
  match after with
  | Some (s', _) =>
      (List.length (items (todos s')) <= 3)%nat /\
      (forall t', In t' (items (todos s')) ->
                  exists t, In t (items (todos Sample.todos0)) /\
                            id t' = id t /\ createdAt t' = createdAt t)
  | None => False
  end.
Proof.
  cbv zeta.
  destruct (run (todoReducer Sample.todos0 (Some Sample.todos0) (deleteTodo "2"))
              Sample.afterLoad) as [[s' w']|] eqn:Hrun.
  - apply (only_addTodo_adds_tasks
             Sample.todos0 Sample.todos0 (deleteTodo "2") Sample.afterLoad s' w').
    + simpl. discriminate.
    + exact Hrun.
  - discriminate Hrun.
Defined.

(** X13. Along a run in which every addTodo draws an id that no task has
    at that moment, no two tasks ever share an id, given that none did at
    the start. *)
Theorem unique_ids_along_fresh_runs :
  forall (init : TodoState) (actions : list Action) (s : TodoState) (w : World)
         (s' : TodoState) (w' : World),
    uniqueIds s ->
    addsFreshIds init s actions w ->
    Todo.dispatchAll init s actions w = Some (s', w') ->
    uniqueIds s'.
Proof.
  intros init actions. induction actions as [|a rest IH];
    intros s w s' w' Hs Hfresh Hrun; simpl in *.
  - injection Hrun as <- _. exact Hs.
  - destruct Hfresh as [Hnow Hlater].
    destruct (run (todoReducer init (Some s) a) w) as [[s1 w1]|] eqn:Hstep;
      [|discriminate].
    apply (IH s1 w1 s' w'); try assumption.
    exact (todoReducer_keeps_unique_ids init s a w s1 w1 Hs Hstep Hnow).
Qed.

(** With a clock that advances between the two additions. *)
Lemma unique_ids_witness :
  match Todo.dispatchAll Sample.todos0 Sample.todos0
          [addTodo "Buy milk"; addTodo "Buy bread"; toggleTodo "2"; deleteTodo "1"]
          Sample.tickingAfterLoad with
  | Some (s', _) => uniqueIds s'
  | None => False
  end.
Proof.
  assert (Hfresh : addsFreshIds Sample.todos0 Sample.todos0
                     [addTodo "Buy milk"; addTodo "Buy bread"; toggleTodo "2";
                      deleteTodo "1"] Sample.tickingAfterLoad).
  { vm_compute.
    repeat split; try discriminate;
      intros _ H; repeat (destruct H as [H|H]; [discriminate H|]); exact H. }
  assert (Hsome : match Todo.dispatchAll Sample.todos0 Sample.todos0
                          [addTodo "Buy milk"; addTodo "Buy bread"; toggleTodo "2";
                           deleteTodo "1"] Sample.tickingAfterLoad with
                  | Some _ => true
                  | None => false
                  end = true).
  { vm_compute. reflexivity. }
  destruct (Todo.dispatchAll Sample.todos0 Sample.todos0
              [addTodo "Buy milk"; addTodo "Buy bread"; toggleTodo "2";
               deleteTodo "1"] Sample.tickingAfterLoad)
    as [[s' w']|] eqn:Hrun.
  - exact (unique_ids_along_fresh_runs
             Sample.todos0
             [addTodo "Buy milk"; addTodo "Buy bread"; toggleTodo "2";
              deleteTodo "1"]
             Sample.todos0 Sample.tickingAfterLoad s' w'
             (initial_ids_unique Sample.stuckWorld) Hfresh Hrun).
  - discriminate Hsome.
Defined.

(** ** generateId *)

Lemma append_same_length_inj (a a' b b' : string) :
  String.length a = String.length a' ->
  (a ++ b)%string = (a' ++ b')%string -> a = a'.
Proof.
  revert a'. induction a as [|c a IH]; intros [|c' a'] Hlen Heq;
    simpl in *; try discriminate.
  - reflexivity.
  - injection Hlen as Hlen. injection Heq as -> Heq. f_equal. now apply IH.
Qed.

Lemma Number_toString_inj (m n : Z) :
  Number_toString m = Number_toString n -> m = n.
Proof.
  unfold Number_toString. intros H.
  apply DecimalZ.to_int_inj.
  assert (Hparse : forall z,
             NilZero.int_of_string (NilZero.string_of_int (Z.to_int z))
             = Some (Z.to_int z)).
  { intros z. apply NilZero.isi; destruct z; simpl; try discriminate;
      intros [= E]; exact (DecimalPos.Unsigned.to_uint_nonnil _ E). }
  pose proof (Hparse m) as Hm. rewrite H, Hparse in Hm. now injection Hm.
Qed.

(** X14. Two ids generated at clock readings that differ and are written
    with the same number of digits are different, whatever the random
    source gives. *)
Theorem generateId_differs_across_milliseconds :
  forall (w1 w2 : World),
    clock w1 (clockReads w1) <> clock w2 (clockReads w2) ->
    String.length (Number_toString (clock w1 (clockReads w1)))
    = String.length (Number_toString (clock w2 (clockReads w2))) ->
    fst (generateId w1) <> fst (generateId w2).
Proof.
  intros w1 w2 Hclock Hlen. unfold generateId, bind. simpl. intros Heq.
  apply Hclock, Number_toString_inj.
  exact (append_same_length_inj _ _ _ _ Hlen Heq).
Qed.

Lemma generateId_witness :
  (fst (generateId Sample.tickingAfterLoad)
   =? fst (generateId (snd (generateId Sample.tickingAfterLoad))))%string = false.
Proof.
  apply String.eqb_neq.
  apply (generateId_differs_across_milliseconds
           Sample.tickingAfterLoad (snd (generateId Sample.tickingAfterLoad))).
  - vm_compute. discriminate.
  - vm_compute. reflexivity.
Defined.

(* ========================================================================= *)
(** * Further properties of the selectors *)
(* ========================================================================= *)

(** X15. With an empty search term and a filter other than ACTIVE and
    COMPLETED, selectFilteredTodos returns the todos array of the state
    itself and allocates nothing.  In every other case it returns an array
    allocated by the call, hence an object other than the state's array (and
    other than what an earlier call returned), also when it holds the same
    tasks. *)
Theorem selectFilteredTodos_array_identity :
  forall (toLowerCase : string -> string) (s : TodoState) (w : World),
    (searchTerm s = ""%string -> filter s <> "ACTIVE"%string ->
     filter s <> "COMPLETED"%string ->
     selectFilteredTodos toLowerCase s w = (todos s, w)) /\
    (searchTerm s <> ""%string \/ filter s = "ACTIVE"%string
     \/ filter s = "COMPLETED"%string ->
     (arrayRef (todos s) < nextRef w)%nat ->
     (nextRef w <= arrayRef (fst (selectFilteredTodos toLowerCase s w)))%nat /\
     (arrayRef (fst (selectFilteredTodos toLowerCase s w))
      < nextRef (snd (selectFilteredTodos toLowerCase s w)))%nat /\
     fst (selectFilteredTodos toLowerCase s w) <> todos s).
Proof.
  intros toLowerCase s w. unfold selectFilteredTodos, bind. split.
  - intros Hterm Hactive Hcompleted.
    rewrite Hterm. simpl.
    apply String.eqb_neq in Hactive, Hcompleted.
    now rewrite Hactive, Hcompleted.
  - intros Hcase Hold.
    assert (Hnew : forall arr : JsArray Todo,
               (nextRef w <= arrayRef arr)%nat -> arr <> todos s).
    { intros arr Hge Heq. rewrite Heq in Hge. lia. }
    destruct (truthy (searchTerm s)) eqn:Etruthy; simpl;
      destruct (String.eqb_spec (filter s) "ACTIVE") as [Ea|Ea];
      try destruct (String.eqb_spec (filter s) "COMPLETED") as [Ec|Ec];
      simpl; try (split; [lia|split; [lia|apply Hnew; simpl; lia]]).
    apply truthy_spec in Etruthy. destruct Hcase as [H|[H|H]]; contradiction.
Qed.

Lemma selectFilteredTodos_identity_witness :
  selectFilteredTodos toLowerCaseAscii Sample.todos0 Sample.afterLoad
  = (todos Sample.todos0, Sample.afterLoad) /\
  fst (selectFilteredTodos toLowerCaseAscii
         (mkTodoState 0%nat (todos Sample.todos0) "ALL" "redux")
         Sample.afterLoad)
  <> todos Sample.todos0 /\
  items (fst (selectFilteredTodos toLowerCaseAscii
                (mkTodoState 0%nat (todos Sample.todos0) "ALL" "redux")
                Sample.afterLoad))
  = items (todos Sample.todos0).
Proof.
  split; [|split].
  - apply (proj1 (selectFilteredTodos_array_identity toLowerCaseAscii
                    Sample.todos0 Sample.afterLoad));
      simpl; [reflexivity|discriminate|discriminate].
  - apply (proj2 (selectFilteredTodos_array_identity toLowerCaseAscii
                    (mkTodoState 0%nat (todos Sample.todos0) "ALL" "redux")
                    Sample.afterLoad)).
    + left. simpl. discriminate.
    + simpl. lia.
  - vm_compute. reflexivity.
Defined.

(** X16. For one list and one search term, the ACTIVE and the COMPLETED
    views split the ALL view: a task of the ALL view is in exactly one of
    the two, and their lengths add up to its length. *)
Theorem active_and_completed_split_all :
  forall (toLowerCase : string -> string) (r1 r2 r3 : ref) (ts : JsArray Todo)
         (term : string) (w1 w2 w3 : World),
    let active :=
      items (fst (selectFilteredTodos toLowerCase (mkTodoState r1 ts "ACTIVE" term) w1)) in
    let done :=
      items (fst (selectFilteredTodos toLowerCase (mkTodoState r2 ts "COMPLETED" term) w2)) in
    let all :=
      items (fst (selectFilteredTodos toLowerCase (mkTodoState r3 ts "ALL" term) w3)) in
    (List.length active + List.length done)%nat = List.length all /\
    (forall t, In t all <-> In t active \/ In t done) /\
    (forall t, ~ (In t active /\ In t done)).
Proof.
  intros toLowerCase r1 r2 r3 ts term w1 w2 w3. cbv zeta.
  rewrite !selectFilteredTodos_items. simpl.
  set (searched := if truthy term then _ else _).
  split; [|split].
  - rewrite Nat.add_comm.
    apply (filter_split_length (fun todo : Todo => completed todo)).
  - intros t. rewrite !filter_In. destruct (completed t); simpl; intuition.
  - intros t [Ha Hd]. apply filter_In in Ha as [_ Ha], Hd as [_ Hd].
    rewrite Hd in Ha. discriminate.
Qed.

(** X17. The counts of selectTodoStats are consistent with one another and
    with selectFilteredTodos under an empty search term: total is completed
    plus active, completed lies between 0 and total, and total, active and
    completed are the lengths of the ALL, ACTIVE and COMPLETED views. *)
Theorem stats_agree_with_views :
  forall (toLowerCase : string -> string) (r : ref) (ts : JsArray Todo)
         (f : string) (w u1 u2 u3 : World),
    let stats := fst (selectTodoStats (mkTodoState r ts f "") w) in
    Stats.total stats = Stats.completed stats + Stats.active stats /\
    0 <= Stats.completed stats <= Stats.total stats /\
    0 <= Stats.active stats <= Stats.total stats /\
    Stats.total stats
    = Array_length (fst (selectFilteredTodos toLowerCase (mkTodoState r ts "ALL" "") u1)) /\
    Stats.active stats
    = Array_length (fst (selectFilteredTodos toLowerCase (mkTodoState r ts "ACTIVE" "") u2)) /\
    Stats.completed stats
    = Array_length (fst (selectFilteredTodos toLowerCase (mkTodoState r ts "COMPLETED" "") u3)).
Proof.
  intros toLowerCase r ts f w u1 u2 u3. cbv zeta. unfold Array_length.
  rewrite !selectFilteredTodos_items. simpl.
  pose proof (filter_split_length (fun todo : Todo => completed todo) (items ts))
    as Hlen. cbv beta in Hlen.
  unfold Array_length. simpl.
  repeat split; lia.
Qed.

Lemma forallb_filter_length {A : Type} (p : A -> bool) (l : list A) :
  forallb p l = true <-> List.length (List.filter p l) = List.length l.
Proof.
  induction l as [|x l IH]; simpl.
  - tauto.
  - pose proof (filter_length_le p l) as Hle.
    destruct (p x); simpl.
    + rewrite IH. split; [congruence|]. intros [= H]. exact H.
    + split; [discriminate|]. lia.
Qed.

Lemma forallb_constant (l : list Todo) (b : bool) :
  l <> [] -> Forall (fun t => completed t = b) l -> forallb completed l = b.
Proof.
  intros Hne Hall. destruct b.
  - apply forallb_forall. now apply Forall_forall.
  - destruct l as [|x l]; [contradiction|].
    inversion Hall as [|? ? Hx _]; subst. simpl. now rewrite Hx.
Qed.

(** X18. selectAllTodosCompleted is true exactly when the statistics count
    at least one task and no active one; on a list that is not empty
    markAllComplete inverts it, and on the empty list it is false before and
    after. *)
Theorem markAllComplete_inverts_allCompleted :
  forall (init s : TodoState) (w u : World),
    (selectAllTodosCompleted s = true <->
     0 < Stats.total (fst (selectTodoStats s u)) /\
     Stats.active (fst (selectTodoStats s u)) = 0) /\
    exists s' w',
      run (todoReducer init (Some s) markAllComplete) w = Some (s', w') /\
      (items (todos s) <> [] ->
       selectAllTodosCompleted s' = negb (selectAllTodosCompleted s)) /\
      (items (todos s) = [] ->
       selectAllTodosCompleted s = false /\ selectAllTodosCompleted s' = false).
Proof.
  intros init s w u. split.
  - unfold selectAllTodosCompleted, Array_every, Array_length. simpl.
    unfold Array_length. simpl.
    rewrite andb_true_iff, Z.ltb_lt.
    rewrite (forallb_filter_length completed).
    pose proof (filter_length_le (fun todo : Todo => completed todo)
                  (items (todos s))) as Hle.
    change (List.filter completed (items (todos s)))
      with (List.filter (fun todo : Todo => completed todo) (items (todos s))).
    split; intros [Hpos Hall]; (split; [exact Hpos|]); lia.
  - destruct (markAllComplete_step init s w) as (s' & w' & Hrun & Hall & _).
    exists s', w'. split; [exact Hrun|].
    pose proof (Forall2_length Hall) as Hlen.
    apply all_completed_after in Hall.
    unfold selectAllTodosCompleted, Array_every, Array_length.
    destruct (items (todos s)) as [|x l] eqn:El;
      destruct (items (todos s')) as [|x' l'] eqn:El'; try discriminate.
    + split; [intros H; now contradiction H|]. intros _. split; reflexivity.
    + split; [|discriminate]. intros _.
      rewrite (forallb_constant (x' :: l') _ ltac:(discriminate) Hall).
      reflexivity.
Qed.

Lemma markAllComplete_inverts_witness :
  exists s' w',
    run (todoReducer Sample.todos0 (Some Sample.todos0) markAllComplete)
        Sample.afterLoad = Some (s', w') /\
    selectAllTodosCompleted Sample.todos0 = false /\
    selectAllTodosCompleted s' = true.
Proof.
  destruct (proj2 (markAllComplete_inverts_allCompleted
                     Sample.todos0 Sample.todos0 Sample.afterLoad Sample.afterLoad))
    as (s' & w' & Hrun & Hflip & _).
  exists s', w'. split; [exact Hrun|]. split; [reflexivity|].
  rewrite Hflip; [reflexivity|]. simpl. discriminate.
Defined.

(** ** The percentage up to 100 tasks *)

Lemma agreesUpTo_100 : agreesUpTo 100 = true.
Proof.
  vm_compute. reflexivity.
Qed.

Lemma misrounded_spec (c t : Z) :
  existsb (fun p => (fst p =? c) && (snd p =? t)) misrounded = true ->
  In (c, t) misrounded.
Proof.
  intros H. apply existsb_exists in H as ([c' t'] & Hin & Heq).
  simpl in Heq. apply andb_true_iff in Heq as [Hc Ht].
  apply Z.eqb_eq in Hc, Ht. now subst.
Qed.

(** X19. For a list of at most 100 tasks, the percentage selectTodoStats
    returns is the exact quotient 100 * completed / total rounded to the
    nearest integer (halves up), the counts 23 of 40 and 46 of 80 apart. *)
Theorem completionPercentage_exact_up_to_100 :
  forall (s : TodoState) (w : World),
    (List.length (items (todos s)) <= 100)%nat ->
    let stats := fst (selectTodoStats s w) in
    ~ In (Stats.completed stats, Stats.total stats) misrounded ->
    PrimFloat.eqb (Stats.completionPercentage stats)
      (toNumber (exactPercentage (Stats.completed stats) (Stats.total stats)))
    = true.
Proof.
  intros s w Hsize stats Hnot.
  pose proof (filter_length_le (fun todo : Todo => completed todo)
                (items (todos s))) as Hle.
  pose proof agreesUpTo_100 as Hall. unfold agreesUpTo in Hall.
  rewrite forallb_forall in Hall.
  specialize (Hall (List.length (items (todos s)))).
  rewrite forallb_forall in Hall.
  specialize (Hall ltac:(apply in_seq; lia)
                   (List.length (List.filter (fun todo : Todo => completed todo)
                                   (items (todos s))))
                   ltac:(apply in_seq; lia)).
  cbv zeta in Hall. apply orb_true_iff in Hall as [Hbad|Hgood].
  - apply misrounded_spec in Hbad. contradiction.
  - exact Hgood.
Qed.

Lemma completionPercentage_witness :
  PrimFloat.eqb
    (Stats.completionPercentage
       (fst (selectTodoStats (Sample.tasks 7 3) Sample.stuckWorld)))
    (toNumber 43) = true.
Proof.
  apply (completionPercentage_exact_up_to_100 (Sample.tasks 7 3) Sample.stuckWorld).
  - vm_compute. repeat constructor.
  - vm_compute. intros [H|[H|[]]]; discriminate H.
Defined.

(* ========================================================================= *)
(** * The root reducer *)
(* ========================================================================= *)

Lemma todoReducer_default (init s : TodoState) (a : Action) :
  ~ In (type a) Todo.recognized -> todoReducer init (Some s) a = Some (ret s).
Proof.
  intros Hout. unfold todoReducer.
  rewrite (eqb_outside _ ADD_TODO _ Hout) by known_tag.
  rewrite (eqb_outside _ TOGGLE_TODO _ Hout) by known_tag.
  rewrite (eqb_outside _ DELETE_TODO _ Hout) by known_tag.
  rewrite (eqb_outside _ EDIT_TODO _ Hout) by known_tag.
  rewrite (eqb_outside _ CLEAR_COMPLETED _ Hout) by known_tag.
  rewrite (eqb_outside _ SET_FILTER _ Hout) by known_tag.
  rewrite (eqb_outside _ SET_SEARCH_TERM _ Hout) by known_tag.
  rewrite (eqb_outside _ MARK_ALL_COMPLETE _ Hout) by known_tag.
  reflexivity.
Qed.

Lemma counterReducer_default (init s : CounterState) (a : Action) :
  ~ In (type a) Counter.recognized -> counterReducer init (Some s) a = Some (ret s).
Proof.
  intros Hout. unfold counterReducer.
  rewrite (eqb_outside _ INCREMENT _ Hout) by known_tag.
  rewrite (eqb_outside _ DECREMENT _ Hout) by known_tag.
  rewrite (eqb_outside _ INCREMENT_BY_AMOUNT _ Hout) by known_tag.
  rewrite (eqb_outside _ RESET _ Hout) by known_tag.
  reflexivity.
Qed.

(** No tag belongs to both slices. *)
Lemma tags_disjoint (t : string) :
  In t Counter.recognized -> In t Todo.recognized -> False.
Proof.
  unfold Counter.recognized, Todo.recognized. simpl.
  intros [<-|[<-|[<-|[<-|[]]]]] H;
    repeat (destruct H as [H|H]; [discriminate H|]); exact H.
Qed.

(** A todo action with the payload its interface declares is reduced. *)
Lemma todoReducer_typed (init : TodoState) (s : option TodoState) (a : Action) :
  todoTyped a = true -> exists m, todoReducer init s a = Some m.
Proof.
  unfold todoTyped, todoReducer. cbv zeta. intros Hty.
  destruct (type a =? ADD_TODO)%string;
    [destruct (payload a); try discriminate; eauto|].
  destruct (type a =? TOGGLE_TODO)%string;
    [destruct (payload a); try discriminate; eauto|].
  destruct (type a =? DELETE_TODO)%string;
    [destruct (payload a); try discriminate; eauto|].
  destruct (type a =? EDIT_TODO)%string;
    [destruct (payload a); try discriminate; eauto|].
  destruct (type a =? CLEAR_COMPLETED)%string; [eauto|].
  destruct (type a =? SET_FILTER)%string;
    [destruct (payload a); try discriminate; eauto|].
  destruct (type a =? SET_SEARCH_TERM)%string;
    [destruct (payload a); try discriminate; eauto|].
  destruct (type a =? MARK_ALL_COMPLETE)%string; eauto.
Qed.

(** X20. Through the root reducer, an operation of the counter slice
    changes the counter as the counter reducer does and leaves the todos
    state object in place, and an operation of the todo slice changes the
    todos as the todo reducer does and leaves the counter state object in
    place. *)
Theorem slices_do_not_interfere :
  forall (counterInit : CounterState) (todoInit : TodoState)
         (st : Store.RootState) (a : Action) (w : World),
    (counterTyped a = true -> In (type a) Counter.recognized ->
     exists st' w',
       run (Store.rootReducer counterInit todoInit (Some st) a) w = Some (st', w') /\
       Store.todos st' = Store.todos st /\
       run (counterReducer counterInit (Some (Store.counter st)) a) w
       = Some (Store.counter st', w')) /\
    (todoTyped a = true -> In (type a) Todo.recognized ->
     exists st' w',
       run (Store.rootReducer counterInit todoInit (Some st) a) w = Some (st', w') /\
       Store.counter st' = Store.counter st /\
       run (todoReducer todoInit (Some (Store.todos st)) a) w
       = Some (Store.todos st', w')).
Proof.
  intros counterInit todoInit st a w. unfold Store.rootReducer. simpl. split.
  - intros Hty Hin.
    rewrite (todoReducer_default todoInit (Store.todos st) a)
      by (intros Hin'; exact (tags_disjoint _ Hin Hin')).
    destruct (counterReducer_cases counterInit (Store.counter st) a w Hty)
      as [[_ Hstep]|[Hout _]]; [|contradiction].
    destruct (counterReducer counterInit (Some (Store.counter st)) a) as [m|];
      [|discriminate]. simpl in *. injection Hstep as Hstep.
    unfold bind, ret. rewrite Hstep. eexists _, _. repeat split.
  - intros Hty Hin.
    rewrite (counterReducer_default counterInit (Store.counter st) a)
      by (intros Hin'; exact (tags_disjoint _ Hin' Hin)).
    destruct (todoReducer_typed todoInit (Some (Store.todos st)) a Hty) as [m Hm].
    rewrite Hm. simpl. unfold bind, ret. destruct (m w) as [t w'] eqn:E.
    eexists _, _. repeat split.
Qed.

Lemma slices_witness :
  (exists st' w',
      run (Store.rootReducer Sample.counter0 Sample.todos0
             (Some (Store.mkRootState Sample.counter0 Sample.todos0)) increment)
          Sample.afterLoad = Some (st', w') /\
      Store.todos st' = Sample.todos0 /\ value (Store.counter st') = 1%float) /\
  (exists st' w',
      run (Store.rootReducer Sample.counter0 Sample.todos0
             (Some (Store.mkRootState Sample.counter0 Sample.todos0))
             (toggleTodo "2"))
          Sample.afterLoad = Some (st', w') /\
      Store.counter st' = Sample.counter0).
Proof.
  split.
  - destruct (proj1 (slices_do_not_interfere
                       Sample.counter0 Sample.todos0
                       (Store.mkRootState Sample.counter0 Sample.todos0)
                       increment Sample.afterLoad))
      as (st' & w' & Hrun & Htodos & Hcounter).
    + reflexivity.
    + simpl. auto.
    + exists st', w'. split; [exact Hrun|]. split; [exact Htodos|].
      simpl in Hcounter. injection Hcounter as Hc _. rewrite <- Hc. reflexivity.
  - destruct (proj2 (slices_do_not_interfere
                       Sample.counter0 Sample.todos0
                       (Store.mkRootState Sample.counter0 Sample.todos0)
                       (toggleTodo "2") Sample.afterLoad))
      as (st' & w' & Hrun & Hcounter & _).
    + reflexivity.
    + simpl. auto 10.
    + exists st', w'. split; [exact Hrun|exact Hcounter].
Defined.

(** X21. When the store is created, the root reducer is called without a
    state and with an action no slice recognizes: the state it returns holds
    the two [initialState] objects of the modules.  Called with such an
    action on any state, it hands on the two slice objects of that state. *)
Theorem store_starts_with_initial_states :
  forall (counterInit : CounterState) (todoInit : TodoState) (a : Action) (w : World),
    ~ In (type a) Counter.recognized ->
    ~ In (type a) Todo.recognized ->
    (exists st' w',
        run (Store.rootReducer counterInit todoInit None a) w = Some (st', w') /\
        Store.counter st' = counterInit /\
        Store.todos st' = todoInit) /\
    (forall st : Store.RootState,
        exists st' w',
          run (Store.rootReducer counterInit todoInit (Some st) a) w
          = Some (st', w') /\
          Store.counter st' = Store.counter st /\
          Store.todos st' = Store.todos st).
Proof.
  intros counterInit todoInit a w Hc Ht. split.
  - pose proof (counterReducer_default counterInit counterInit a Hc) as Hcd.
    pose proof (todoReducer_default todoInit todoInit a Ht) as Htd.
    unfold Store.rootReducer. simpl.
    unfold counterReducer, todoReducer in *. simpl in *.
    rewrite Hcd, Htd. eexists _, _. repeat split.
  - intros st. unfold Store.rootReducer. simpl.
    rewrite (counterReducer_default counterInit (Store.counter st) a Hc).
    rewrite (todoReducer_default todoInit (Store.todos st) a Ht).
    eexists _, _. repeat split.
Qed.

Lemma store_start_witness :
  exists st' w',
    run (Store.rootReducer Sample.counter0 Sample.todos0 None Sample.initAction)
        Sample.afterLoad = Some (st', w') /\
    Store.counter st' = Sample.counter0 /\
    Store.todos st' = Sample.todos0.
Proof.
  apply (store_starts_with_initial_states
           Sample.counter0 Sample.todos0 Sample.initAction Sample.afterLoad);
    simpl; intuition discriminate.
Defined.

(* ========================================================================= *)
(** * New state objects *)
(* ========================================================================= *)

Ltac reduced_todo_branch Hrun :=
  simpl in Hrun;
  try rewrite map_branch_eq in Hrun;
  injection Hrun as <- <-; simpl;
  repeat split; try reflexivity; try lia; try contradiction.

(** X22. A todo action with a recognized tag is always answered with a state
    object allocated by the call, so with an object other than the one it
    was given, also when the list comes out with the same tasks (deleteTodo
    of an unknown id, setFilter to the filter already set).  The todos array
    is a new one as well, except after setFilter and setSearchTerm. *)
Theorem recognized_todo_action_allocates :
  forall (init s : TodoState) (a : Action) (w : World) (s' : TodoState) (w' : World),
    In (type a) Todo.recognized ->
    run (todoReducer init (Some s) a) w = Some (s', w') ->
    stateRef s' = nextRef w /\
    ((stateRef s < nextRef w)%nat -> s' <> s) /\
    (type a <> SET_FILTER -> type a <> SET_SEARCH_TERM ->
     arrayRef (todos s') = S (nextRef w)).
Proof.
  intros init s a w s' w' Hin Hrun.
  assert (Hnew : stateRef s' = nextRef w ->
                 (stateRef s < nextRef w)%nat -> s' <> s).
  { intros Href Hold Heq. rewrite Heq in Href. lia. }
  enough (Hgoal : stateRef s' = nextRef w /\
                  (type a <> SET_FILTER -> type a <> SET_SEARCH_TERM ->
                   arrayRef (todos s') = S (nextRef w))).
  { destruct Hgoal as [Href Harr]. auto. }
  clear Hnew. unfold todoReducer in Hrun.
  unfold Todo.recognized in Hin. simpl in Hin.
  destruct Hin as [e|[e|[e|[e|[e|[e|[e|[e|[]]]]]]]]]; rewrite <- e in *;
    simpl in Hrun; try (destruct (payload a); try discriminate Hrun);
    reduced_todo_branch Hrun.
Qed.

Lemma recognized_todo_action_witness :
  match run (todoReducer Sample.todos0 (Some Sample.todos0) (setFilter "ALL"))
            Sample.afterLoad with
  | Some (s', _) =>
      Spec.todoContents s' = Spec.todoContents Sample.todos0 /\
      stateRef s' = nextRef Sample.afterLoad
  | None => False
  end.
Proof.
  destruct (run (todoReducer Sample.todos0 (Some Sample.todos0) (setFilter "ALL"))
              Sample.afterLoad) as [[s' w']|] eqn:Hrun; [|discriminate Hrun].
  destruct (recognized_todo_action_allocates
              Sample.todos0 Sample.todos0 (setFilter "ALL") Sample.afterLoad s' w')
    as (Href & _ & _).
  - simpl. auto 10.
  - exact Hrun.
  - split; [|exact Href].
    simpl in Hrun. injection Hrun as <- _. reflexivity.
Defined.
